(** * cloudknot/config.py: the configuration store

    A shallow embedding of [cloudknot.config] and of the part of Python's
    [configparser] it drives, followed by the properties of its operations.

    Representation choices.
    - A Python [dict] is an association list in insertion order with one
      entry per key.
    - An INI file is represented by its blocks in file order: a header and
      the option lines under it, as the strict parser finds them in a file
      that it accepts.  The text that stands behind the blocks is modelled
      apart: [write_text] is what [ConfigParser.write] puts out and
      [read_text] is the loop of [ConfigParser._read] over the lines of a
      text, and [read_text_write_text] shows that, for names and values
      that are text of a line, [_read] finds in the text written the very
      blocks that [write] gives.  A name or a value that the caller hands
      in is required to be such text before a statement says that it is
      read back from the file.
    - Strings are taken over the ASCII range: [str.lower] and [str.isspace]
      are the ASCII ones.
    - Opening a file for writing is taken to succeed: the directory is there
      and can be written to.
    - Module state ([CONFIG], [aws.clients]), the process environment, the
      file system and the AWS account are fields of one [World]; every
      function of [config.py] is a state transformer that returns a value or
      raises.  The world at the moment of a raise is kept.
    - [logging.info] has no effect on that state and is left out. *)

From Stdlib Require Import String Ascii List Bool Arith Lia.
Import ListNotations.
Open Scope string_scope.

Set Implicit Arguments.

(** ** Python values used by the module *)

Module Py.

(** The exceptions that can travel through [config.py]. *)
Inductive exn : Type :=
| KeyError (key : string)
| ValueError (msg : string)
| NoSectionError (section : string)
| NoOptionError (opt section : string)
| DuplicateSectionError (section : string)
| DuplicateOptionError (section opt : string)
| MissingSectionHeaderError
| ParsingError
| InterpolationDepthError
| InterpolationSyntaxError
| InterpolationMissingOptionError (reference : string)
| TypeError
| ResourceDoesNotExistException
| OtherException (name : string).

Inductive Result (A : Type) : Type :=
| Ok (a : A)
| Raise (e : exn).
Arguments Ok {A} a.
Arguments Raise {A} e.

Definition is_ok {A} (r : Result A) : bool :=
  match r with Ok _ => true | Raise _ => false end.

(** [str.lower] on the ASCII range. *)
Definition lower_char (c : ascii) : ascii :=
  let n := nat_of_ascii c in
  if (Nat.leb 65 n) && (Nat.leb n 90) then ascii_of_nat (n + 32) else c.

Fixpoint lower (s : string) : string :=
  match s with
  | EmptyString => EmptyString
  | String c r => String (lower_char c) (lower r)
  end.

(** [c in s] for a one-character [c]. *)
Fixpoint contains_char (c : ascii) (s : string) : bool :=
  match s with
  | EmptyString => false
  | String c' r => Ascii.eqb c' c || contains_char c r
  end.

(** [s.find(c)] as a split: the text before the first [c] and the text
    from it on; [None] when [find] returns -1. *)
Fixpoint split_at_char (c : ascii) (s : string) : option (string * string) :=
  match s with
  | EmptyString => None
  | String c' r =>
      if Ascii.eqb c' c then Some (EmptyString, s)
      else match split_at_char c r with
           | Some (before, from) => Some (String c' before, from)
           | None => None
           end
  end.

(** [s.split(' ', 1)[0]]. *)
Fixpoint split_space_head (s : string) : string :=
  match s with
  | EmptyString => EmptyString
  | String c r => if Ascii.eqb c " "%char then EmptyString else String c (split_space_head r)
  end.

(** [c.isspace()] on the ASCII range, which is also the class [\s] of
    [re]: tab to carriage return, the four separators and the blank. *)
Definition isspace (c : ascii) : bool :=
  let n := nat_of_ascii c in
  (Nat.leb 9 n && Nat.leb n 13) || (Nat.leb 28 n && Nat.leb n 32).

(** [s.lstrip()], [s.rstrip()] and [s.strip()]. *)
Fixpoint lstrip (s : string) : string :=
  match s with
  | EmptyString => EmptyString
  | String c r => if isspace c then lstrip r else s
  end.

Fixpoint rstrip (s : string) : string :=
  match s with
  | EmptyString => EmptyString
  | String c r =>
      match rstrip r with
      | EmptyString => if isspace c then EmptyString else String c EmptyString
      | String _ _ as r' => String c r'
      end
  end.

Definition strip (s : string) : string := rstrip (lstrip s).

(** [all(p(c) for c in s)]. *)
Fixpoint all_chars (p : ascii -> bool) (s : string) : bool :=
  match s with
  | EmptyString => true
  | String c r => p c && all_chars p r
  end.

(** [x in l] for a list of strings. *)
Definition str_in (x : string) (l : list string) : bool :=
  existsb (String.eqb x) l.

(** [str(l)] for a list of strings. *)
Definition str_of_list (l : list string) : string :=
  "[" ++ String.concat ", " (map (fun s => "'" ++ s ++ "'") l) ++ "]".

(** A [dict] with string keys. *)
Section Dict.
Variable V : Type.

Definition dict : Type := list (string * V).

Fixpoint dict_get (k : string) (d : dict) : option V :=
  match d with
  | [] => None
  | (k', v) :: r => if String.eqb k' k then Some v else dict_get k r
  end.

Definition dict_has (k : string) (d : dict) : bool :=
  match dict_get k d with Some _ => true | None => false end.

(** [d[k] = v]: an existing key keeps its position, a new one goes last. *)
Fixpoint dict_set (k : string) (v : V) (d : dict) : dict :=
  match d with
  | [] => [(k, v)]
  | (k', v') :: r =>
      if String.eqb k' k then (k, v) :: r else (k', v') :: dict_set k v r
  end.

(** [del d[k]]. *)
Definition dict_del (k : string) (d : dict) : dict :=
  filter (fun kv => negb (String.eqb (fst kv) k)) d.

Definition dict_keys (d : dict) : list string := map fst d.

(** [d1.update(d2)]. *)
Definition dict_update (d1 d2 : dict) : dict :=
  fold_left (fun acc kv => dict_set (fst kv) (snd kv) acc) d2 d1.
End Dict.

(** [str.format] with positional and keyword arguments, for a template with a single
    replacement field that is named [field]: the field is looked up in
    the keyword arguments, and positional arguments cannot fill it. *)
Definition format_named (before field after : string)
           (args : list string) (kwargs : dict string) : Result string :=
  match dict_get field kwargs with
  | Some v => Ok (before ++ v ++ after)
  | None => Raise (KeyError field)
  end.

(** [posixpath.join]. *)
Definition ends_with_sep (p : string) : bool :=
  match String.get (String.length p - 1) p with
  | Some c => Ascii.eqb c "/"%char
  | None => false
  end.

Definition starts_with_sep (p : string) : bool :=
  match p with
  | String c _ => Ascii.eqb c "/"%char
  | EmptyString => false
  end.

Definition join2 (path b : string) : string :=
  if starts_with_sep b then b
  else if (String.eqb path "") || ends_with_sep path then path ++ b
  else path ++ "/" ++ b.

Definition os_path_join (a : string) (p : list string) : string :=
  fold_left join2 p a.

End Py.
Import Py.

(** ** [configparser.ConfigParser] *)

Module configparser.

Definition DEFAULTSECT : string := "DEFAULT".
Definition MAX_INTERPOLATION_DEPTH : nat := 10.

(** The content of an INI file: its blocks, header first. *)
Definition IniFile : Type := list (string * list (string * string)).

(** The parser keeps the DEFAULT block apart from the named sections. *)
Record ConfigParser : Type := {
  _defaults : dict string;
  _sections : dict (dict string)
}.

(** [configparser.ConfigParser()]. *)
Definition new : ConfigParser := {| _defaults := []; _sections := [] |}.

Definition optionxform (optionstr : string) : string := lower optionstr.

Definition sections (P : ConfigParser) : list string := dict_keys (_sections P).

Definition has_section (P : ConfigParser) (section : string) : bool :=
  dict_has section (_sections P).

(** [clear] is the mapping protocol's: it pops sections until [popitem]
    raises, and [popitem] never returns DEFAULT, whose options stay. *)
Definition clear (P : ConfigParser) : ConfigParser :=
  {| _defaults := _defaults P; _sections := [] |}.

Definition add_section (P : ConfigParser) (section : string) : Result ConfigParser :=
  if String.eqb section DEFAULTSECT then Raise (ValueError "Invalid section name")
  else if dict_has section (_sections P) then Raise (DuplicateSectionError section)
  else Ok {| _defaults := _defaults P; _sections := dict_set section [] (_sections P) |}.

Definition options (P : ConfigParser) (section : string) : Result (list string) :=
  match dict_get section (_sections P) with
  | None => Raise (NoSectionError section)
  | Some opts => Ok (dict_keys (dict_update opts (_defaults P)))
  end.

Definition has_option (P : ConfigParser) (section opt : string) : bool :=
  if (String.eqb section "") || String.eqb section DEFAULTSECT then
    dict_has (optionxform opt) (_defaults P)
  else
    match dict_get section (_sections P) with
    | None => false
    | Some sectdict =>
        dict_has (optionxform opt) sectdict
        || dict_has (optionxform opt) (_defaults P)
    end.

(** *** BasicInterpolation *)

(** The text up to the first [")"], and what follows it. *)
Fixpoint until_rparen (s : string) : option (string * string) :=
  match s with
  | EmptyString => None
  | String c r =>
      if Ascii.eqb c ")"%char then Some (EmptyString, r)
      else match until_rparen r with
           | Some (name, rest) => Some (String c name, rest)
           | None => None
           end
  end.

(** [_KEYCRE.match(rest)] for [_KEYCRE = %\(([^)]+)\)s]: group 1 and the
    text after the match. *)
Definition KEYCRE_match (rest : string) : option (string * string) :=
  match rest with
  | String c0 (String c1 r) =>
      if Ascii.eqb c0 "%"%char && Ascii.eqb c1 "("%char then
        match until_rparen r with
        | Some (EmptyString, _) => None
        | Some (name, String c2 after) =>
            if Ascii.eqb c2 "s"%char then Some (name, after) else None
        | _ => None
        end
      else None
  | _ => None
  end.

(** [value.replace('%%', '')]. *)
Fixpoint drop_escaped (s : string) : string :=
  match s with
  | EmptyString => EmptyString
  | String c r =>
      match r with
      | String c' r' =>
          if Ascii.eqb c "%"%char && Ascii.eqb c' "%"%char then drop_escaped r'
          else String c (drop_escaped r)
      | EmptyString => s
      end
  end.

(** [_KEYCRE.sub('', s)]; [fuel] bounds the scan by the length of [s]. *)
Fixpoint KEYCRE_sub (fuel : nat) (s : string) : string :=
  match fuel with
  | 0 => s
  | S fuel' =>
      match KEYCRE_match s with
      | Some (_, after) => KEYCRE_sub fuel' after
      | None =>
          match s with
          | EmptyString => EmptyString
          | String c r => String c (KEYCRE_sub fuel' r)
          end
      end
  end.

Definition before_set (value : string) : Result string :=
  let tmp_value := drop_escaped value in
  let tmp_value := KEYCRE_sub (String.length tmp_value) tmp_value in
  if contains_char "%"%char tmp_value
  then Raise (ValueError "invalid interpolation syntax")
  else Ok value.

(** [_interpolate_some]: [levels] is the number of nesting levels still
    allowed, [MAX_INTERPOLATION_DEPTH] at the outermost call; the inner
    loop is the [while rest] loop, bounded by the length of [rest]. *)
Fixpoint interpolate_some (levels : nat) (map : string -> option string)
         (rest : string) : Result string :=
  match levels with
  | 0 => Raise InterpolationDepthError
  | S levels' =>
      (fix while (fuel : nat) (rest : string) : Result string :=
         match fuel with
         | 0 => Ok rest
         | S fuel' =>
             match split_at_char "%"%char rest with
             | None => Ok rest
             | Some (before, from) =>
                 match from with
                 | String _ (String c after) =>
                     if Ascii.eqb c "%"%char then
                       match while fuel' after with
                       | Ok tail => Ok (before ++ "%" ++ tail)
                       | Raise e => Raise e
                       end
                     else if Ascii.eqb c "("%char then
                       match KEYCRE_match from with
                       | None => Raise InterpolationSyntaxError
                       | Some (name, after) =>
                           let var := optionxform name in
                           match map var with
                           | None => Raise (InterpolationMissingOptionError var)
                           | Some v =>
                               match (if contains_char "%"%char v
                                      then interpolate_some levels' map v
                                      else Ok v) with
                               | Raise e => Raise e
                               | Ok v' =>
                                   match while fuel' after with
                                   | Ok tail => Ok (before ++ v' ++ tail)
                                   | Raise e => Raise e
                                   end
                               end
                           end
                       end
                     else Raise InterpolationSyntaxError
                 | _ => Raise InterpolationSyntaxError
                 end
             end
         end) (String.length rest) rest
  end.

Definition before_get (value : string) (map : string -> option string) : Result string :=
  interpolate_some MAX_INTERPOLATION_DEPTH map value.

(** [_unify_values(section, None)]: the section's options first, then
    DEFAULT's. *)
Definition unify_values (P : ConfigParser) (section : string)
  : Result (string -> option string) :=
  let chain (sectiondict : dict string) (k : string) :=
    match dict_get k sectiondict with
    | Some v => Some v
    | None => dict_get k (_defaults P)
    end in
  match dict_get section (_sections P) with
  | Some sectiondict => Ok (chain sectiondict)
  | None =>
      if String.eqb section DEFAULTSECT then Ok (chain [])
      else Raise (NoSectionError section)
  end.

(** [get(section, option, raw=raw, fallback=fallback)]; [fallback = None]
    stands for the argument left unset. *)
Definition get (P : ConfigParser) (section opt : string)
           (raw : bool) (fallback : option string) : Result string :=
  match unify_values P section with
  | Raise e => match fallback with Some f => Ok f | None => Raise e end
  | Ok d =>
      let opt := optionxform opt in
      match d opt with
      | None =>
          match fallback with
          | Some f => Ok f
          | None => Raise (NoOptionError opt section)
          end
      | Some value => if raw then Ok value else before_get value d
      end
  end.

(** [set(section, option, value)]. *)
Definition set (P : ConfigParser) (section opt value : string) : Result ConfigParser :=
  match (if String.eqb value "" then Ok value else before_set value) with
  | Raise e => Raise e
  | Ok value =>
      if (String.eqb section "") || String.eqb section DEFAULTSECT then
        Ok {| _defaults := dict_set (optionxform opt) value (_defaults P);
              _sections := _sections P |}
      else
        match dict_get section (_sections P) with
        | None => Raise (NoSectionError section)
        | Some sectdict =>
            Ok {| _defaults := _defaults P;
                  _sections := dict_set section
                                 (dict_set (optionxform opt) value sectdict)
                                 (_sections P) |}
        end
  end.

(** [remove_option(section, option)]: answers whether the option
    existed; a missing option is not an error. *)
Definition remove_option (P : ConfigParser) (section opt : string)
  : Result (bool * ConfigParser) :=
  if (String.eqb section "") || String.eqb section DEFAULTSECT then
    let opt := optionxform opt in
    let existed := dict_has opt (_defaults P) in
    Ok (existed,
        if existed
        then {| _defaults := dict_del opt (_defaults P); _sections := _sections P |}
        else P)
  else
    match dict_get section (_sections P) with
    | None => Raise (NoSectionError section)
    | Some sectdict =>
        let opt := optionxform opt in
        let existed := dict_has opt sectdict in
        Ok (existed,
            if existed
            then {| _defaults := _defaults P;
                    _sections := dict_set section (dict_del opt sectdict) (_sections P) |}
            else P)
    end.

Definition remove_section (P : ConfigParser) (section : string) : bool * ConfigParser :=
  let existed := dict_has section (_sections P) in
  (existed,
   if existed
   then {| _defaults := _defaults P; _sections := dict_del section (_sections P) |}
   else P).

(** [_read], once the lines of the file have been made into blocks (see
    [read_text] below for that part, and for the errors that the text of a
    file can give): every option line goes into the current block's dict
    under its [optionxform]ed name. *)
Definition read_options (cursect : dict string) (lines : list (string * string))
  : dict string :=
  fold_left (fun d kv => dict_set (optionxform (fst kv)) (snd kv) d) lines cursect.

Definition read_block (P : ConfigParser) (block : string * list (string * string))
  : ConfigParser :=
  let (sectname, lines) := block in
  match dict_get sectname (_sections P) with
  | Some cursect =>
      {| _defaults := _defaults P;
         _sections := dict_set sectname (read_options cursect lines) (_sections P) |}
  | None =>
      if String.eqb sectname DEFAULTSECT then
        {| _defaults := read_options (_defaults P) lines; _sections := _sections P |}
      else
        {| _defaults := _defaults P;
           _sections := dict_set sectname (read_options [] lines) (_sections P) |}
  end.

Definition read (P : ConfigParser) (f : IniFile) : ConfigParser :=
  fold_left read_block f P.

(** [write]: the DEFAULT block when it has options, then the sections.
    These are the blocks that the text written stands for; [write_text]
    below is the text itself. *)
Definition write (P : ConfigParser) : IniFile :=
  match _defaults P with
  | [] => _sections P
  | _ :: _ => (DEFAULTSECT, _defaults P) :: _sections P
  end.

(** *** The text of a file, line by line

    The parser is the default one: delimiters [=] and [:], comment prefixes
    [#] and [;], no inline comments, no option without a value. *)





Definition comment_prefix (c : ascii) : bool :=
  Ascii.eqb c "#"%char || Ascii.eqb c ";"%char.

Definition delimiter (c : ascii) : bool :=
  Ascii.eqb c "="%char || Ascii.eqb c ":"%char.









(** *** The text of a whole file *)




















End configparser.

(** ** The world [config.py] runs in *)

(** The resource classes of [cloudknot.aws] that [prune] instantiates. *)
Inductive ResourceClass : Type :=
| IamRole
| Vpc
| SecurityGroup.

(** One instantiation: the class, the keyword it is given and the
    identifier passed under that keyword. *)
Record ResourceCall : Type := {
  call_class : ResourceClass;
  call_keyword : string;
  call_ident : string
}.

Record World : Type := {
  (** [os.environ] *)
  environ : dict string;
  (** [os.path.expanduser('~')] *)
  user_home : string;
  (** [os.path.abspath] *)
  abspath : string -> string;
  (** the regular files, by path *)
  files : dict configparser.IniFile;
  (** the module-level parser [CONFIG] *)
  CONFIG : configparser.ConfigParser;
  (** [aws.clients]: for each service name, the region its client is bound to *)
  clients : dict string;
  (** the names in the answer of [describe_regions], or its failure *)
  region_catalog : Result (list string);
  (** what instantiating a resource class does: [None] when the object is
      built, the exception otherwise *)
  resource_state : ResourceCall -> option exn;
  (** the instantiations made so far, oldest first *)
  resource_calls : list ResourceCall
}.

Definition with_files (w : World) (fs : dict configparser.IniFile) : World :=
  {| environ := environ w; user_home := user_home w; abspath := abspath w;
     files := fs; CONFIG := CONFIG w; clients := clients w;
     region_catalog := region_catalog w; resource_state := resource_state w;
     resource_calls := resource_calls w |}.

Definition with_CONFIG (w : World) (P : configparser.ConfigParser) : World :=
  {| environ := environ w; user_home := user_home w; abspath := abspath w;
     files := files w; CONFIG := P; clients := clients w;
     region_catalog := region_catalog w; resource_state := resource_state w;
     resource_calls := resource_calls w |}.

Definition with_clients (w : World) (cs : dict string) : World :=
  {| environ := environ w; user_home := user_home w; abspath := abspath w;
     files := files w; CONFIG := CONFIG w; clients := cs;
     region_catalog := region_catalog w; resource_state := resource_state w;
     resource_calls := resource_calls w |}.

Definition with_resource_calls (w : World) (cs : list ResourceCall) : World :=
  {| environ := environ w; user_home := user_home w; abspath := abspath w;
     files := files w; CONFIG := CONFIG w; clients := clients w;
     region_catalog := region_catalog w; resource_state := resource_state w;
     resource_calls := cs |}.

(** A computation: from a world to a result and the world it leaves. *)
Definition M (A : Type) : Type := World -> Result A * World.

Definition ret {A} (a : A) : M A := fun w => (Ok a, w).

Definition raise {A} (e : exn) : M A := fun w => (Raise e, w).

Definition bind {A B} (m : M A) (k : A -> M B) : M B :=
  fun w =>
    match m w with
    | (Ok a, w') => k a w'
    | (Raise e, w') => (Raise e, w')
    end.

Declare Scope py_scope.
Delimit Scope py_scope with py.
Notation "x <- m ;; k" := (bind m (fun x => k))
  (at level 61, m at next level, right associativity) : py_scope.
Notation "m ;; k" := (bind m (fun _ => k))
  (at level 61, right associativity) : py_scope.
Open Scope py_scope.

(** A value or an exception computed without touching the world. *)
Definition lift {A} (r : Result A) : M A := fun w => (r, w).

(** [try: body / except ...: handler]: [handler e] is [None] for an
    exception that no [except] clause names. *)
Definition try_except {A} (body : M A) (handler : exn -> option (M A)) : M A :=
  fun w =>
    match body w with
    | (Ok a, w') => (Ok a, w')
    | (Raise e, w') =>
        match handler e with
        | Some h => h w'
        | None => (Raise e, w')
        end
    end.

(** [for x in l: body]. *)
Fixpoint for_each {A} (l : list A) (body : A -> M unit) : M unit :=
  match l with
  | [] => ret tt
  | x :: r => body x ;; for_each r body
  end.

(** [if c: body]. *)
Definition when (c : bool) (body : M unit) : M unit :=
  if c then body else ret tt.

(** *** The operating system *)

Definition os_environ (name : string) : M string :=
  fun w =>
    match dict_get name (environ w) with
    | Some v => (Ok v, w)
    | None => (Raise (KeyError name), w)
    end.

Definition os_path_abspath (p : string) : M string :=
  fun w => (Ok (abspath w p), w).

Definition os_path_expanduser_home : M string :=
  fun w => (Ok (user_home w), w).

Definition os_path_isfile (p : string) : M bool :=
  fun w => (Ok (dict_has p (files w)), w).

(** [with open(p, 'w') as f: ...] leaving [content] in the file. *)
Definition open_w (p : string) (content : configparser.IniFile) : M unit :=
  fun w => (Ok tt, with_files w (dict_set p content (files w))).

(** *** [CONFIG] *)

Definition CONFIG_clear : M unit :=
  fun w => (Ok tt, with_CONFIG w (configparser.clear (CONFIG w))).

(** [parser.read(p)]: a path that cannot be opened is skipped. *)
Definition read_file (P : configparser.ConfigParser) (p : string) (w : World)
  : configparser.ConfigParser :=
  match dict_get p (files w) with
  | Some f => configparser.read P f
  | None => P
  end.

Definition CONFIG_read (p : string) : M unit :=
  fun w => (Ok tt, with_CONFIG w (read_file (CONFIG w) p w)).

Definition CONFIG_query {A} (f : configparser.ConfigParser -> A) : M A :=
  fun w => (Ok (f (CONFIG w)), w).

Definition CONFIG_try {A} (f : configparser.ConfigParser -> Result A) : M A :=
  fun w => (f (CONFIG w), w).

Definition CONFIG_update (f : configparser.ConfigParser -> Result configparser.ConfigParser)
  : M unit :=
  fun w =>
    match f (CONFIG w) with
    | Ok P => (Ok tt, with_CONFIG w P)
    | Raise e => (Raise e, w)
    end.

Definition CONFIG_sections : M (list string) :=
  CONFIG_query configparser.sections.

Definition CONFIG_has_section (section : string) : M bool :=
  CONFIG_query (fun P => configparser.has_section P section).

Definition CONFIG_has_option (section opt : string) : M bool :=
  CONFIG_query (fun P => configparser.has_option P section opt).

Definition CONFIG_get (section opt : string) : M string :=
  CONFIG_try (fun P => configparser.get P section opt false None).

Definition CONFIG_options (section : string) : M (list string) :=
  CONFIG_try (fun P => configparser.options P section).

Definition CONFIG_add_section (section : string) : M unit :=
  CONFIG_update (fun P => configparser.add_section P section).

Definition CONFIG_set (section opt value : string) : M unit :=
  CONFIG_update (fun P => configparser.set P section opt value).

Definition CONFIG_remove_option (section opt : string) : M bool :=
  fun w =>
    match configparser.remove_option (CONFIG w) section opt with
    | Ok (existed, P) => (Ok existed, with_CONFIG w P)
    | Raise e => (Raise e, w)
    end.

Definition CONFIG_remove_section (section : string) : M bool :=
  fun w =>
    let (existed, P) := configparser.remove_section (CONFIG w) section in
    (Ok existed, with_CONFIG w P).

(** [with open(config_file, 'w') as f: CONFIG.write(f)]. *)
Definition CONFIG_write (config_file : string) : M unit :=
  fun w => open_w config_file (configparser.write (CONFIG w)) w.

(** *** AWS *)

(** Modelled from the spec: [aws.clients['ec2'].describe_regions()] and the
    comprehension over its ['Regions'], the region catalog: the list of
    valid region names, or the failure of the call. *)
Definition describe_regions : M (list string) :=
  fun w =>
    match dict_get "ec2" (clients w) with
    | None => (Raise (KeyError "ec2"), w)
    | Some _ => (region_catalog w, w)
    end.

(** Modelled from the spec: [aws.clients[service] = boto3.client(service,
    region_name=region)], the client handle of a service rebound to the
    region. *)
Definition rebind_client (service region : string) : M unit :=
  fun w => (Ok tt, with_clients w (dict_set service region (clients w))).

(** Modelled from the spec: instantiating a class of [cloudknot.aws] with an
    identifier, the existence check of a resource: it returns when the
    resource exists and raises [ResourceDoesNotExistException] when it does
    not; any other failure is another exception.  The configuration is not
    touched. *)
Definition instantiate (c : ResourceClass) (keyword ident : string) : M unit :=
  fun w =>
    let call := {| call_class := c; call_keyword := keyword; call_ident := ident |} in
    let w' := with_resource_calls w (resource_calls w ++ [call]) in
    match resource_state w call with
    | None => (Ok tt, w')
    | Some e => (Raise e, w')
    end.

(** ** [config.py] *)

Definition get_config_file : M string :=
  config_file <-
    try_except
      (env_file <- os_environ "CLOUDKNOT_CONFIG_FILE" ;;
       os_path_abspath env_file)
      (fun e =>
         match e with
         | KeyError _ =>
             Some (home <- os_path_expanduser_home ;;
                   ret (os_path_join home [".aws"; "cloudknot"]))
         | _ => None
         end) ;;
  is_file <- os_path_isfile config_file ;;
  when (negb is_file) (open_w config_file []) ;;
  ret config_file.

Definition fallback_region : string := "us-east-1".

Definition get_region : M string :=
  config_file <- get_config_file ;;
  CONFIG_clear ;;
  CONFIG_read config_file ;;
  has_aws <- CONFIG_has_section "aws" ;;
  has_region <- (if has_aws then CONFIG_has_option "aws" "region" else ret false) ;;
  if has_region then
    CONFIG_get "aws" "region"
  else
    region <-
      try_except
        (os_environ "AWS_DEFAULT_REGION")
        (fun e =>
           match e with
           | KeyError _ =>
               Some (home <- os_path_expanduser_home ;;
                     let aws_config_file := os_path_join home [".aws"; "config"] in
                     is_file <- os_path_isfile aws_config_file ;;
                     if is_file then
                       fun w =>
                         let aws_config := read_file configparser.new aws_config_file w in
                         try_except
                           (lift (configparser.get aws_config "default" "region" false
                                                   (Some fallback_region)))
                           (fun e =>
                              match e with
                              | TypeError =>
                                  Some (region <- lift (configparser.get aws_config "default"
                                                                         "region" false None) ;;
                                        ret (if String.eqb region "" then fallback_region
                                             else region))
                              | _ => None
                              end) w
                     else
                       ret fallback_region)
           | _ => None
           end) ;;
    has_aws <- CONFIG_has_section "aws" ;;
    when (negb has_aws) (CONFIG_add_section "aws") ;;
    CONFIG_set "aws" "region" region ;;
    CONFIG_write config_file ;;
    ret region.

Definition set_region (region : string) : M unit :=
  region_names <- describe_regions ;;
  when (negb (str_in region region_names))
       (msg <- lift (format_named "`region` must be in " "regions" ""
                                  [str_of_list region_names] []) ;;
        raise (ValueError msg)) ;;
  config_file <- get_config_file ;;
  CONFIG_clear ;;
  CONFIG_read config_file ;;
  has_aws <- CONFIG_has_section "aws" ;;
  when (negb has_aws) (CONFIG_add_section "aws") ;;
  CONFIG_set "aws" "region" region ;;
  CONFIG_write config_file ;;
  rebind_client "iam" region ;;
  rebind_client "ec2" region ;;
  rebind_client "batch" region ;;
  rebind_client "ecr" region.

Definition add_resource (section opt value : string) : M unit :=
  config_file <- get_config_file ;;
  CONFIG_clear ;;
  CONFIG_read config_file ;;
  sections <- CONFIG_sections ;;
  when (negb (str_in section sections)) (CONFIG_add_section section) ;;
  CONFIG_set section opt value ;;
  CONFIG_write config_file.

Definition remove_resource (section opt : string) : M unit :=
  config_file <- get_config_file ;;
  CONFIG_clear ;;
  CONFIG_read config_file ;;
  CONFIG_remove_option section opt ;;
  CONFIG_write config_file.

Definition approved_sections : list string :=
  ["aws"; "roles"; "vpc"; "security-groups"; "docker-repos";
   "job-definitions"; "compute-environments"; "job-queues"; "jobs"].

Definition section_approved (sec : string) : bool :=
  str_in sec approved_sections || str_in (split_space_head sec) ["pars"; "jars"].

Definition verify_sections : M unit :=
  config_file <- get_config_file ;;
  CONFIG_clear ;;
  CONFIG_read config_file ;;
  sections <- CONFIG_sections ;;
  for_each sections
    (fun section =>
       when (negb (section_approved section))
            (CONFIG_remove_section section ;; ret tt)).

(** One pruning loop of [prune]:
    [for x in CONFIG.options(section): try: cls(keyword=x) except
    ResourceDoesNotExistException: CONFIG.remove_option(section, x)]. *)
Definition prune_loop (section : string) (cls : ResourceClass) (keyword : string) : M unit :=
  names <- CONFIG_options section ;;
  for_each names
    (fun name =>
       try_except
         (instantiate cls keyword name)
         (fun e =>
            match e with
            | ResourceDoesNotExistException =>
                Some (CONFIG_remove_option section name ;; ret tt)
            | _ => None
            end)).

Definition prune : M unit :=
  verify_sections ;;
  config_file <- get_config_file ;;
  CONFIG_clear ;;
  CONFIG_read config_file ;;
  (* Prune roles *)
  prune_loop "roles" IamRole "name" ;;
  (* Prune VPCs *)
  prune_loop "vpc" Vpc "vpc_id" ;;
  (* Prune security groups *)
  prune_loop "security-groups" SecurityGroup "security_group_id" ;;
  (* Prune docker containers *)
  (repos <- CONFIG_options "docker-repos" ;;
   for_each repos (fun repo => ret tt)) ;;
  (* Prune job definitions *)
  prune_loop "job-definitions" IamRole "name" ;;
  (* Prune compute environments *)
  prune_loop "compute-environments" IamRole "name" ;;
  (* Prune job queues *)
  prune_loop "job-queues" IamRole "name" ;;
  (* Prune batch jobs *)
  prune_loop "jobs" IamRole "job_id".

(** ** Observations used in the statements *)

(** The path [get_config_file] returns. *)
Definition config_path (w : World) : string :=
  match dict_get "CLOUDKNOT_CONFIG_FILE" (environ w) with
  | Some env_file => abspath w env_file
  | None => os_path_join (user_home w) [".aws"; "cloudknot"]
  end.

(** The world [get_config_file] leaves: the config file exists. *)
Definition touched (w : World) : World :=
  if dict_has (config_path w) (files w) then w
  else with_files w (dict_set (config_path w) [] (files w)).

(** The blocks of the config file; none when it does not exist yet. *)
Definition config_content (w : World) : configparser.IniFile :=
  match dict_get (config_path w) (files w) with
  | Some f => f
  | None => []
  end.

(** [CONFIG] after [CONFIG.clear(); CONFIG.read(config_file)]. *)
Definition loaded (w : World) : configparser.ConfigParser :=
  configparser.read (configparser.clear (CONFIG w)) (config_content w).

(** A fresh read of the config file: what a new parser gets from it. *)
Definition fresh_read (w : World) : configparser.ConfigParser :=
  configparser.read configparser.new (config_content w).

(** The options a parser holds under a section header. *)
Definition section_of (P : configparser.ConfigParser) (section : string)
  : option (dict string) :=
  dict_get section (configparser._sections P).

(** A value without a percent sign: interpolation leaves it alone. *)
Definition plain (value : string) : bool :=
  negb (contains_char "%"%char value).

(** A section name that is neither empty nor DEFAULT. *)
Definition named_section (section : string) : bool :=
  negb (String.eqb section "") && negb (String.eqb section configparser.DEFAULTSECT).

(** A printable ASCII character, the blank included. *)
Definition printable (c : ascii) : bool :=
  let n := nat_of_ascii c in
  Nat.leb 32 n && Nat.leb n 126.

(** Text that a line of the file holds as it is: printable ASCII that
    neither starts nor ends with a blank. *)
Definition line_text (s : string) : bool :=
  all_chars printable s && String.eqb (strip s) s.

(** An option name that its line gives back: text that is not empty, has
    no delimiter, and does not start as a comment or as a header does. *)
Definition option_text (opt : string) : bool :=
  line_text opt
  && all_chars (fun c => negb (configparser.delimiter c)) opt
  && match opt with
     | EmptyString => false
     | String c _ => negb (configparser.comment_prefix c) && negb (Ascii.eqb c "["%char)
     end.



(** A triple that [add_resource] accepts and that the file gives back: a
    section name other than the empty one and DEFAULT, an option name, and
    a value whose percent signs obey the interpolation syntax, each of them
    text that its line holds as it is. *)
Definition valid_triple (section opt value : string) : bool :=
  (named_section section && line_text section)
  && option_text opt
  && (line_text value && is_ok (configparser.before_set value)).

(** The shape of what the parser holds: option names are lower-case and
    occur once per block, section names occur once and DEFAULT is not one
    of them. *)
Definition lower_keys (d : dict string) : Prop :=
  Forall (fun k => lower k = k) (dict_keys d).

Definition dict_normal (d : dict string) : Prop :=
  NoDup (dict_keys d) /\ lower_keys d.

Definition sections_normal (S : dict (dict string)) : Prop :=
  NoDup (dict_keys S)
  /\ ~ In configparser.DEFAULTSECT (dict_keys S)
  /\ Forall (fun kv => dict_normal (snd kv)) S.


(** The world after [CONFIG] has become [P] and has been written to the
    config file. *)
Definition saved (w : World) (P : configparser.ConfigParser) : World :=
  with_files (with_CONFIG (touched w) P)
             (dict_set (config_path w) (configparser.write P) (files (touched w))).

(** [P] with [value] under [opt] in [section], the section being added when
    it is missing. *)
Definition upserted (P : configparser.ConfigParser) (section opt value : string)
  : configparser.ConfigParser :=
  let sectdict := match section_of P section with Some d => d | None => [] end in
  {| configparser._defaults := configparser._defaults P;
     configparser._sections :=
       dict_set section
                (dict_set (configparser.optionxform opt) value sectdict)
                (configparser._sections P) |}.

(** [P] without [opt] in [section]. *)
Definition without (P : configparser.ConfigParser) (section opt : string)
  : configparser.ConfigParser :=
  match section_of P section with
  | Some d =>
      {| configparser._defaults := configparser._defaults P;
         configparser._sections :=
           dict_set section (dict_del (configparser.optionxform opt) d)
                    (configparser._sections P) |}
  | None => P
  end.

(** The test [get_region] makes on the loaded file. *)
Definition stored_region (w : World) : bool :=
  configparser.has_section (loaded w) "aws"
  && configparser.has_option (loaded w) "aws" "region".

(** The ambient AWS config file. *)
Definition ambient_path (w : World) : string :=
  os_path_join (user_home w) [".aws"; "config"].

(** The region the ambient AWS config file defines, the hard-coded fallback
    when the file is missing or defines none. *)
Definition ambient_region (w : World) : Result string :=
  match dict_get (ambient_path w) (files (touched w)) with
  | Some f =>
      configparser.get (configparser.read configparser.new f) "default" "region"
                       false (Some fallback_region)
  | None => Ok fallback_region
  end.

(** The region by the order of precedence of the specification: the config
    file's [aws.region], then the environment variable, then the ambient
    AWS config file, then the fallback. *)
Definition region_by_precedence (w : World) : Result string :=
  if stored_region w then configparser.get (loaded w) "aws" "region" false None
  else match dict_get "AWS_DEFAULT_REGION" (environ w) with
       | Some region => Ok region
       | None => ambient_region w
       end.

(** The region found outside the config file, if any, is one that the
    parser accepts as a value. *)
Definition region_storable (w : World) : bool :=
  stored_region w
  || match region_by_precedence w with
     | Ok region => is_ok (configparser.before_set region)
     | Raise _ => true
     end.



(** No option of the DEFAULT section is left in [CONFIG] from an earlier
    read: [clear] would keep it. *)
Definition no_defaults_left (w : World) : bool :=
  match configparser._defaults (CONFIG w) with
  | [] => true
  | _ :: _ => false
  end.



(** ** Example worlds *)

Definition home_config : string := "/home/user/.aws/cloudknot".
Definition home_aws_config : string := "/home/user/.aws/config".

(** A world with the given environment, files and AWS resources, a parser
    that has read nothing yet and a client for each service. *)
Definition example_world (env : dict string) (fs : dict configparser.IniFile)
           (state : ResourceCall -> option exn) : World :=
  {| environ := env;
     user_home := "/home/user";
     abspath := fun p => p;
     files := fs;
     CONFIG := configparser.new;
     clients := [("iam", "us-east-1"); ("ec2", "us-east-1");
                 ("batch", "us-east-1"); ("ecr", "us-east-1")];
     region_catalog := Ok ["us-east-1"; "us-west-2"; "eu-west-1"; "ap-south-1"];
     resource_state := state;
     resource_calls := [] |}.

Definition all_exist : ResourceCall -> option exn := fun _ => None.

(** A config file with a role and a VPC. *)
Definition world_with_roles : World :=
  example_world []
    [(home_config, [("roles", [("batch-role", "arn:aws:iam::1:role/batch-role")]);
                    ("vpc", [("vpc-0a1b", "default")])])]
    all_exist.

(** The four states of the precedence example. *)
Definition region_env : dict string := [("AWS_DEFAULT_REGION", "us-west-2")].
Definition region_in_config : configparser.IniFile := [("aws", [("region", "eu-west-1")])].
Definition region_in_ambient : configparser.IniFile := [("default", [("region", "ap-south-1")])].

Definition world_region_all : World :=
  example_world region_env
    [(home_config, region_in_config); (home_aws_config, region_in_ambient)] all_exist.

Definition world_region_env : World :=
  example_world region_env
    [(home_config, []); (home_aws_config, region_in_ambient)] all_exist.



(** [P] with the sections that [section_approved] rejects taken out. *)
Definition verified (P : configparser.ConfigParser) : configparser.ConfigParser :=
  {| configparser._defaults := configparser._defaults P;
     configparser._sections :=
       filter (fun kv => section_approved (fst kv)) (configparser._sections P) |}.

(** A config file with an approved section and one that is not approved. *)
Definition world_with_stray_section : World :=
  example_world []
    [(home_config, [("roles", [("batch-role", "arn:aws:iam::1:role/batch-role")]);
                    ("scratch", [("note", "left over")])])]
    all_exist.

(** ** The pruning loops, section by section *)

(** A step of [prune]: the section it walks and, when it instantiates a
    class for each option, the class and the keyword. *)
Abbreviation Step := (string * option (ResourceClass * string))%type.

Definition prune_plan : list Step :=
  [("roles", Some (IamRole, "name"));
   ("vpc", Some (Vpc, "vpc_id"));
   ("security-groups", Some (SecurityGroup, "security_group_id"));
   ("docker-repos", None);
   ("job-definitions", Some (IamRole, "name"));
   ("compute-environments", Some (IamRole, "name"));
   ("job-queues", Some (IamRole, "name"));
   ("jobs", Some (IamRole, "job_id"))].

Definition run_step (step : Step) : M unit :=
  match snd step with
  | Some (cls, keyword) => prune_loop (fst step) cls keyword
  | None => repos <- CONFIG_options (fst step) ;; for_each repos (fun repo => ret tt)
  end.

Definition mk_call (cls : ResourceClass) (keyword name : string) : ResourceCall :=
  {| call_class := cls; call_keyword := keyword; call_ident := name |}.

(** The existence check says that the resource is gone. *)
Definition gone (state : ResourceCall -> option exn) (cls : ResourceClass)
           (keyword name : string) : bool :=
  match state (mk_call cls keyword name) with
  | Some ResourceDoesNotExistException => true
  | _ => false
  end.

(** The existence check fails in another way. *)
Definition failure (state : ResourceCall -> option exn) (cls : ResourceClass)
           (keyword name : string) : option exn :=
  match state (mk_call cls keyword name) with
  | Some ResourceDoesNotExistException => None
  | other => other
  end.

Definition passes (state : ResourceCall -> option exn) (cls : ResourceClass)
           (keyword name : string) : bool :=
  match failure state cls keyword name with
  | None => true
  | Some _ => false
  end.

(** The option [k] is the name, up to [optionxform], of a visited resource
    that is gone. *)
Definition removed_by (is_gone : string -> bool) (names : list string) (k : string) : bool :=
  existsb (fun n => is_gone n && String.eqb (configparser.optionxform n) k) names.

(** The options of a section that survive a visit of [names]. *)
Definition pruned_dict (is_gone : string -> bool) (names : list string) (d : dict string)
  : dict string :=
  filter (fun kv => negb (removed_by is_gone names (fst kv))) d.

(** [P] after the loop over [section] has visited [names]. *)
Definition pruned (state : ResourceCall -> option exn) (P : configparser.ConfigParser)
           (section : string) (cls : ResourceClass) (keyword : string)
           (names : list string) : configparser.ConfigParser :=
  match section_of P section with
  | Some d =>
      {| configparser._defaults := configparser._defaults P;
         configparser._sections :=
           dict_set section (pruned_dict (gone state cls keyword) names d)
                    (configparser._sections P) |}
  | None => P
  end.

(** The names a step walks: the options of its section. *)
Definition step_names (P : configparser.ConfigParser) (step : Step) : list string :=
  match configparser.options P (fst step) with
  | Ok names => names
  | Raise _ => []
  end.

Definition pruned_step (state : ResourceCall -> option exn)
           (P : configparser.ConfigParser) (step : Step) : configparser.ConfigParser :=
  match snd step with
  | Some (cls, keyword) => pruned state P (fst step) cls keyword (step_names P step)
  | None => P
  end.

Definition step_calls (P : configparser.ConfigParser) (step : Step) : list ResourceCall :=
  match snd step with
  | Some (cls, keyword) => map (mk_call cls keyword) (step_names P step)
  | None => []
  end.

(** The section of the step is there and none of its existence checks
    fails with something else than "does not exist". *)
Definition step_passes (state : ResourceCall -> option exn)
           (P : configparser.ConfigParser) (step : Step) : bool :=
  configparser.has_section P (fst step)
  && match snd step with
     | Some (cls, keyword) => forallb (passes state cls keyword) (step_names P step)
     | None => true
     end.

(** The steps of [plan] pass one after the other. *)
Fixpoint plan_passes (state : ResourceCall -> option exn)
         (P : configparser.ConfigParser) (plan : list Step) : bool :=
  match plan with
  | [] => true
  | step :: rest =>
      step_passes state P step && plan_passes state (pruned_step state P step) rest
  end.

(** The instantiations the steps of [plan] make, in order. *)
Fixpoint plan_calls (state : ResourceCall -> option exn)
         (P : configparser.ConfigParser) (plan : list Step) : list ResourceCall :=
  match plan with
  | [] => []
  | step :: rest =>
      step_calls P step ++ plan_calls state (pruned_step state P step) rest
  end.

(** [CONFIG] when the pruning loops start: the config file loaded again
    after [verify_sections]. *)
Definition prune_start (w : World) : configparser.ConfigParser :=
  loaded (snd (verify_sections w)).

(** Two worlds with the same files, environment and paths. *)
Definition same_disk (w w' : World) : Prop :=
  files w' = files w
  /\ environ w' = environ w
  /\ user_home w' = user_home w
  /\ abspath w' = abspath w.

(** A computation that leaves the files, the environment and the paths as
    they are. *)
Definition keeps_disk {A : Type} (m : M A) : Prop :=
  forall w, same_disk w (snd (m w)).

(** The sections [prune] walks, all empty. *)
Definition empty_sections : configparser.IniFile :=
  [("roles", []); ("vpc", []); ("security-groups", []); ("docker-repos", []);
   ("job-definitions", []); ("compute-environments", []); ("job-queues", []);
   ("jobs", [])].

(** AWS has every resource but those named [stale-role]. *)
Definition stale_role_gone : ResourceCall -> option exn :=
  fun call =>
    if String.eqb (call_ident call) "stale-role"
    then Some ResourceDoesNotExistException
    else None.

(** A config file whose [roles] section names a role that exists and one
    that does not. *)
Definition world_two_roles : World :=
  example_world []
    [(home_config,
      ("roles", [("knot-role", "arn:aws:iam::1:role/knot-role");
                 ("stale-role", "arn:aws:iam::1:role/stale-role")])
        :: tl empty_sections)]
    stale_role_gone.

(** AWS as above, except that looking up the VPC [vpc-0a1b] times out. *)
Definition vpc_lookup_times_out : ResourceCall -> option exn :=
  fun call =>
    if String.eqb (call_ident call) "vpc-0a1b" then Some (OtherException "EndpointTimeout")
    else stale_role_gone call.

(** A config file with a stale role, a VPC whose lookup fails and a stale
    entry among the job queues. *)
Definition world_failing_vpc : World :=
  example_world []
    [(home_config,
      [("roles", [("knot-role", "arn:aws:iam::1:role/knot-role");
                  ("stale-role", "arn:aws:iam::1:role/stale-role")]);
       ("vpc", [("vpc-0a1b", "default")]);
       ("security-groups", []); ("docker-repos", []); ("job-definitions", []);
       ("compute-environments", []);
       ("job-queues", [("stale-role", "queue")]);
       ("jobs", [])])]
    vpc_lookup_times_out.

(** No config file yet. *)
Definition world_without_file : World := example_world [] [] all_exist.

(** ** Further observations *)

(** The value a parser holds under an option name, as written in its
    section. *)
Definition stored_value (P : configparser.ConfigParser) (section key : string)
  : option string :=
  match section_of P section with
  | Some d => dict_get key d
  | None => None
  end.

(** [describe_regions] answers, and its answer lists the region. *)
Definition region_listed (w : World) (region : string) : bool :=
  match dict_get "ec2" (clients w), region_catalog w with
  | Some _, Ok region_names => str_in region region_names
  | _, _ => false
  end.

(** The environment names a region that the parser does not accept as a
    value. *)
Definition world_region_bad_env : World :=
  example_world [("AWS_DEFAULT_REGION", "us%west")] [(home_config, [])] all_exist.



(** [P'] has the sections of [P], in the same order, each with entries
    that it has in [P]: options may have gone, nothing has come. *)
Definition shrinks (P P' : configparser.ConfigParser) : Prop :=
  configparser.sections P' = configparser.sections P
  /\ forall s d,
       section_of P s = Some d ->
       exists d', section_of P' s = Some d' /\ incl d' d.

(** A computation that only takes options out of [CONFIG]. *)
Definition only_removes {A : Type} (m : M A) : Prop :=
  forall w, shrinks (CONFIG w) (CONFIG (snd (m w))).

(** A config file where every existence check passes: the stale role and
    the stale job queue are found gone, the rest exists. *)
Definition world_all_pass : World :=
  example_world []
    [(home_config,
      [("aws", [("region", "us-east-1")]);
       ("roles", [("knot-role", "arn:aws:iam::1:role/knot-role");
                  ("stale-role", "arn:aws:iam::1:role/stale-role")]);
       ("vpc", [("vpc-0a1b", "default")]);
       ("security-groups", []);
       ("docker-repos", [("stale-role", "123.dkr.ecr/stale-role")]);
       ("job-definitions", []);
       ("compute-environments", []);
       ("job-queues", [("stale-role", "queue")]);
       ("jobs", []);
       ("scratch", [("note", "left over")])])]
    stale_role_gone.

(** The option names [options] gives for a section, none when the section
    is missing. *)
Definition option_names (P : configparser.ConfigParser) (section : string) : list string :=
  step_names P (section, None).

(** Outside the path [cp], [w'] has the files of [w]; it has every file
    that [w] has; the environment and the paths are the same. *)
Definition off_path_untouched (cp : string) (w w' : World) : Prop :=
  environ w' = environ w
  /\ user_home w' = user_home w
  /\ abspath w' = abspath w
  /\ (forall p, p <> cp -> dict_get p (files w') = dict_get p (files w))
  /\ (forall p, dict_has p (files w) = true -> dict_has p (files w') = true).

(** A computation that writes no file but [cp]. *)
Definition writes_only {A : Type} (cp : string) (m : M A) : Prop :=
  forall w, off_path_untouched cp w (snd (m w)).

(** * Properties *)

Unset Implicit Arguments.

(** ** Strings *)

Lemma lower_char_idem (c : ascii) : lower_char (lower_char c) = lower_char c.
Proof.
  destruct c as [[] [] [] [] [] [] [] []]; reflexivity.
Qed.

Lemma lower_idem (s : string) : lower (lower s) = lower s.
Proof.
  induction s as [|c r IH]; simpl; [reflexivity|].
  now rewrite lower_char_idem, IH.
Qed.

Lemma str_in_In (x : string) (l : list string) : str_in x l = true <-> In x l.
Proof.
  unfold str_in. rewrite existsb_exists. split.
  - intros [y [Hy E]]. apply String.eqb_eq in E. now subst.
  - intros H. exists x. split; [assumption | apply String.eqb_refl].
Qed.

Lemma str_in_false (x : string) (l : list string) : str_in x l = false <-> ~ In x l.
Proof.
  rewrite <- str_in_In. destruct (str_in x l); split; congruence.
Qed.

(** ** Dictionaries *)

Section DictFacts.
Variable V : Type.
Implicit Types (d : dict V) (k : string) (v : V).

Lemma dict_has_In k d : dict_has k d = true <-> In k (dict_keys d).
Proof.
  unfold dict_has. induction d as [|[k' v'] r IH]; simpl.
  - split; [discriminate | tauto].
  - destruct (String.eqb_spec k' k) as [->|N].
    + split; auto.
    + rewrite IH. split; [auto | intros [E|H]; [congruence | assumption]].
Qed.

Lemma dict_has_str_in k d : str_in k (dict_keys d) = dict_has k d.
Proof.
  destruct (dict_has k d) eqn:E.
  - apply str_in_In, dict_has_In, E.
  - apply str_in_false. rewrite <- dict_has_In. congruence.
Qed.

Lemma dict_get_None k d : dict_get k d = None <-> ~ In k (dict_keys d).
Proof.
  rewrite <- dict_has_In. unfold dict_has.
  destruct (dict_get k d); split; congruence.
Qed.

Lemma dict_get_set_same k v d : dict_get k (dict_set k v d) = Some v.
Proof.
  induction d as [|[k' v'] r IH]; simpl.
  - now rewrite String.eqb_refl.
  - destruct (String.eqb_spec k' k) as [->|N]; simpl.
    + now rewrite String.eqb_refl.
    + destruct (String.eqb_spec k' k); [contradiction | assumption].
Qed.

Lemma dict_get_set_other k k' v d :
  k' <> k -> dict_get k' (dict_set k v d) = dict_get k' d.
Proof.
  intros N. induction d as [|[k0 v0] r IH]; simpl.
  - destruct (String.eqb_spec k k'); [congruence | reflexivity].
  - destruct (String.eqb_spec k0 k) as [->|N0]; simpl.
    + destruct (String.eqb_spec k k'); [congruence | reflexivity].
    + now rewrite IH.
Qed.

Lemma dict_set_same k v d : dict_get k d = Some v -> dict_set k v d = d.
Proof.
  induction d as [|[k0 v0] r IH]; simpl; [discriminate|].
  destruct (String.eqb_spec k0 k) as [->|N]; intros H.
  - congruence.
  - now rewrite IH.
Qed.

Lemma dict_set_set k v v' d : dict_set k v' (dict_set k v d) = dict_set k v' d.
Proof.
  induction d as [|[k0 v0] r IH]; simpl.
  - now rewrite String.eqb_refl.
  - destruct (String.eqb_spec k0 k) as [->|N]; simpl.
    + now rewrite String.eqb_refl.
    + destruct (String.eqb_spec k0 k); [contradiction | now rewrite IH].
Qed.

Lemma dict_set_fresh k v d : ~ In k (dict_keys d) -> dict_set k v d = (d ++ [(k, v)])%list.
Proof.
  induction d as [|[k0 v0] r IH]; simpl; [reflexivity|].
  intros H. destruct (String.eqb_spec k0 k) as [->|N].
  - exfalso. auto.
  - rewrite IH; auto.
Qed.

Lemma dict_keys_set k v d :
  dict_keys (dict_set k v d) = if dict_has k d then dict_keys d else (dict_keys d ++ [k])%list.
Proof.
  unfold dict_has. induction d as [|[k0 v0] r IH]; simpl; [reflexivity|].
  destruct (String.eqb_spec k0 k) as [->|N]; simpl; [reflexivity|].
  rewrite IH. now destruct (dict_get k r).
Qed.

Lemma dict_get_del_same k d : dict_get k (dict_del k d) = None.
Proof.
  unfold dict_del. induction d as [|[k0 v0] r IH]; simpl; [reflexivity|].
  destruct (String.eqb_spec k0 k) as [->|N]; simpl; [assumption|].
  destruct (String.eqb_spec k0 k); [contradiction | assumption].
Qed.

Lemma dict_get_del_other k k' d :
  k' <> k -> dict_get k' (dict_del k d) = dict_get k' d.
Proof.
  intros N. unfold dict_del. induction d as [|[k0 v0] r IH]; simpl; [reflexivity|].
  destruct (String.eqb_spec k0 k) as [->|N0]; simpl.
  - destruct (String.eqb_spec k k'); [congruence | assumption].
  - now rewrite IH.
Qed.

Lemma dict_del_absent k d : dict_has k d = false -> dict_del k d = d.
Proof.
  unfold dict_has, dict_del. induction d as [|[k0 v0] r IH]; simpl; [reflexivity|].
  destruct (String.eqb_spec k0 k) as [->|N]; simpl; [discriminate|].
  intros H. now rewrite IH.
Qed.

Lemma dict_keys_del k d :
  dict_keys (dict_del k d) = filter (fun k' => negb (String.eqb k' k)) (dict_keys d).
Proof.
  unfold dict_del, dict_keys. induction d as [|[k0 v0] r IH]; simpl; [reflexivity|].
  destruct (String.eqb k0 k); simpl; now rewrite IH.
Qed.

Lemma NoDup_keys_set k v d : NoDup (dict_keys d) -> NoDup (dict_keys (dict_set k v d)).
Proof.
  intros H. rewrite dict_keys_set. destruct (dict_has k d) eqn:E; [assumption|].
  apply NoDup_app; [assumption | repeat constructor; auto | ].
  intros x Hx [<-|[]]. apply dict_has_In in Hx. congruence.
Qed.

Lemma NoDup_keys_del k d : NoDup (dict_keys d) -> NoDup (dict_keys (dict_del k d)).
Proof.
  intros H. rewrite dict_keys_del. now apply NoDup_filter.
Qed.

End DictFacts.

(** ** The parser *)

Module ParserFacts.
Import configparser.

Lemma lower_keys_set k v d :
  lower k = k -> lower_keys d -> lower_keys (dict_set k v d).
Proof.
  unfold lower_keys. intros Hk H. rewrite dict_keys_set.
  destruct (dict_has k d); [assumption|].
  apply Forall_app. split; [assumption | now constructor].
Qed.

Lemma lower_keys_filter (f : string * string -> bool) d :
  lower_keys d -> lower_keys (filter f d).
Proof.
  unfold lower_keys, dict_keys. rewrite !Forall_map.
  intros H. apply Forall_forall. intros x Hx. apply filter_In in Hx.
  rewrite Forall_forall in H. now apply H.
Qed.

Lemma NoDup_keys_filter (V : Type) (f : string * V -> bool) (d : dict V) :
  NoDup (dict_keys d) -> NoDup (dict_keys (filter f d)).
Proof.
  unfold dict_keys. induction d as [|[k v] r IH]; simpl; [auto|].
  intros H. inversion H as [|? ? Hn Hr]; subst.
  destruct (f (k, v)); simpl; [|auto].
  constructor; [|auto].
  intros Hin. apply Hn. apply in_map_iff in Hin as [x [E Hx]].
  apply filter_In in Hx. apply in_map_iff. exists x. tauto.
Qed.

Lemma dict_normal_set k v d :
  dict_normal d -> dict_normal (dict_set (optionxform k) v d).
Proof.
  intros [H1 H2]. split.
  - now apply NoDup_keys_set.
  - apply lower_keys_set; [apply lower_idem | assumption].
Qed.

Lemma dict_normal_del k d : dict_normal d -> dict_normal (dict_del k d).
Proof.
  intros [H1 H2]. split.
  - now apply NoDup_keys_del.
  - now apply lower_keys_filter.
Qed.

Lemma dict_normal_nil : dict_normal [].
Proof. split; constructor. Qed.

Lemma read_options_normal lines : forall cursect,
  dict_normal cursect -> dict_normal (read_options cursect lines).
Proof.
  unfold read_options. induction lines as [|[k v] r IH]; simpl; intros d H.
  - assumption.
  - apply IH. now apply dict_normal_set.
Qed.

(** Reading back lines that are already in normal form adds them as they
    are. *)
Lemma read_options_app lines : forall cursect,
  NoDup (dict_keys cursect ++ dict_keys lines) -> lower_keys lines ->
  read_options cursect lines = (cursect ++ lines)%list.
Proof.
  unfold read_options. induction lines as [|[k v] r IH]; simpl; intros d Hnd Hl.
  - now rewrite app_nil_r.
  - inversion Hl as [|? ? Hk Hr]; subst. simpl in Hk.
    unfold optionxform. rewrite Hk.
    rewrite dict_set_fresh.
    + rewrite IH.
      * now rewrite <- app_assoc.
      * unfold dict_keys in *. rewrite map_app. simpl. now rewrite <- app_assoc.
      * assumption.
    + apply NoDup_remove_2 in Hnd. intros Hin. apply Hnd.
      apply in_or_app. now left.
Qed.

Lemma read_options_nil d : dict_normal d -> read_options [] d = d.
Proof.
  intros [H1 H2]. now rewrite read_options_app.
Qed.

Lemma Forall_dict_set (V : Type) (Q : string * V -> Prop) k v (d : dict V) :
  Q (k, v) -> Forall Q d -> Forall Q (dict_set k v d).
Proof.
  intros Hq. induction d as [|[k0 v0] r IH]; simpl; intros H.
  - now constructor.
  - inversion H; subst. destruct (String.eqb k0 k); constructor; auto.
Qed.

Lemma Forall_dict_get (V : Type) (Q : string * V -> Prop) k v (d : dict V) :
  Forall Q d -> dict_get k d = Some v -> Q (k, v).
Proof.
  induction d as [|[k0 v0] r IH]; simpl; intros H E; [discriminate|].
  inversion H; subst.
  destruct (String.eqb_spec k0 k) as [->|N]; [congruence | auto].
Qed.

Lemma sections_normal_set s d S :
  s <> DEFAULTSECT -> dict_normal d -> sections_normal S ->
  sections_normal (dict_set s d S).
Proof.
  intros Hs Hd (H1 & H2 & H3). repeat split.
  - now apply NoDup_keys_set.
  - rewrite dict_keys_set. destruct (dict_has s S); [assumption|].
    intros Hin. apply in_app_or in Hin as [Hin|[E|[]]]; [auto | congruence].
  - now apply Forall_dict_set.
Qed.

Lemma sections_normal_get s d S :
  sections_normal S -> dict_get s S = Some d -> s <> DEFAULTSECT /\ dict_normal d.
Proof.
  intros (H1 & H2 & H3) E. split.
  - intros ->. apply H2. apply dict_has_In. unfold dict_has. now rewrite E.
  - exact (Forall_dict_get _ (fun kv => dict_normal (snd kv)) s d S H3 E).
Qed.

Lemma sections_normal_filter (f : string * dict string -> bool) S :
  sections_normal S -> sections_normal (filter f S).
Proof.
  intros (H1 & H2 & H3). repeat split.
  - now apply NoDup_keys_filter.
  - intros Hin. apply H2. unfold dict_keys in *.
    apply in_map_iff in Hin as [x [E Hx]]. apply filter_In in Hx.
    apply in_map_iff. exists x. tauto.
  - apply Forall_forall. intros x Hx. apply filter_In in Hx.
    rewrite Forall_forall in H3. now apply H3.
Qed.

Lemma sections_normal_nil : sections_normal [].
Proof. repeat split; try constructor. intros []. Qed.

Lemma read_block_normal P block :
  sections_normal (_sections P) -> sections_normal (_sections (read_block P block)).
Proof.
  destruct block as [s lines]. intros H. simpl.
  destruct (dict_get s (_sections P)) as [d|] eqn:E; simpl.
  - destruct (sections_normal_get _ _ _ H E) as [Hs Hd].
    apply sections_normal_set; auto. now apply read_options_normal.
  - destruct (String.eqb_spec s DEFAULTSECT) as [->|Hs]; simpl; [assumption|].
    apply sections_normal_set; auto.
    apply read_options_normal, dict_normal_nil.
Qed.

Lemma read_normal f : forall P,
  sections_normal (_sections P) -> sections_normal (_sections (read P f)).
Proof.
  unfold read. induction f as [|b r IH]; simpl; intros P H; [assumption|].
  apply IH. now apply read_block_normal.
Qed.

(** The sections that [read] leaves depend on the sections it starts from,
    not on the DEFAULT options around. *)
Lemma read_sections_indep f : forall P P',
  _sections P = _sections P' -> _sections (read P f) = _sections (read P' f).
Proof.
  unfold read. induction f as [|[s lines] r IH]; simpl; intros P P' E; [assumption|].
  apply IH. rewrite E.
  destruct (dict_get s (_sections P')); simpl; [reflexivity|].
  destruct (String.eqb s DEFAULTSECT); simpl; congruence.
Qed.

(** Reading blocks that are in normal form, under headers the parser does
    not have yet, appends them as they are. *)
Lemma read_sections_app S : forall P,
  NoDup (dict_keys (_sections P) ++ dict_keys S) ->
  ~ In DEFAULTSECT (dict_keys S) ->
  Forall (fun kv => dict_normal (snd kv)) S ->
  _sections (read P S) = (_sections P ++ S)%list.
Proof.
  unfold read. induction S as [|[s d] r IH]; simpl; intros P Hnd Hdef Hall.
  - now rewrite app_nil_r.
  - inversion Hall as [|? ? Hd Hr]; subst. simpl in Hd.
    assert (Hfresh : ~ In s (dict_keys (_sections P))).
    { apply NoDup_remove_2 in Hnd. intros Hin. apply Hnd, in_or_app. now left. }
    assert (E : dict_get s (_sections P) = None) by now apply dict_get_None.
    rewrite E.
    destruct (String.eqb_spec s DEFAULTSECT) as [->|Hs]; [exfalso; auto|].
    rewrite IH; simpl.
    + rewrite dict_set_fresh, read_options_nil by assumption.
      now rewrite <- app_assoc.
    + rewrite dict_set_fresh, read_options_nil by assumption.
      unfold dict_keys in *. rewrite map_app. simpl. now rewrite <- app_assoc.
    + auto.
    + assumption.
Qed.

(** What [write] puts in a file, a new parser reads back section for
    section. *)
Lemma read_write_sections P :
  sections_normal (_sections P) ->
  _sections (read new (write P)) = _sections P.
Proof.
  intros (H1 & H2 & H3). unfold write.
  destruct (_defaults P) as [|kv r] eqn:E.
  - rewrite read_sections_app; auto.
  - change (read new ((DEFAULTSECT, kv :: r) :: _sections P))
      with (read {| _defaults := read_options [] (kv :: r); _sections := [] |}
                 (_sections P)).
    rewrite read_sections_app; auto.
Qed.

End ParserFacts.

(** ** Locating and loading the config file *)

Arguments configparser.set : simpl never.
Arguments configparser.get : simpl never.
Arguments configparser.add_section : simpl never.
Arguments configparser.remove_option : simpl never.
Arguments configparser.remove_section : simpl never.
Arguments configparser.options : simpl never.
Arguments configparser.read : simpl never.
Arguments configparser.write : simpl never.
Arguments configparser.has_option : simpl never.
Arguments configparser.has_section : simpl never.
Arguments configparser.sections : simpl never.
Arguments config_path : simpl never.
Arguments touched : simpl never.
Arguments loaded : simpl never.

Lemma config_path_touched w : config_path (touched w) = config_path w.
Proof.
  unfold touched. now destruct (dict_has (config_path w) (files w)).
Qed.

Lemma touched_has_file w : dict_has (config_path w) (files (touched w)) = true.
Proof.
  unfold touched. destruct (dict_has (config_path w) (files w)) eqn:E; [assumption|].
  simpl. unfold dict_has. now rewrite dict_get_set_same.
Qed.

Lemma touched_file w :
  dict_get (config_path w) (files (touched w)) = Some (config_content w).
Proof.
  unfold touched, config_content, dict_has.
  destruct (dict_get (config_path w) (files w)) eqn:E; [assumption|].
  simpl. apply dict_get_set_same.
Qed.

Lemma touched_existing w :
  dict_has (config_path w) (files w) = true -> touched w = w.
Proof.
  unfold touched. now intros ->.
Qed.

Lemma CONFIG_touched w : CONFIG (touched w) = CONFIG w.
Proof.
  unfold touched. now destruct (dict_has (config_path w) (files w)).
Qed.

Lemma environ_touched w : environ (touched w) = environ w.
Proof.
  unfold touched. now destruct (dict_has (config_path w) (files w)).
Qed.

Lemma user_home_touched w : user_home (touched w) = user_home w.
Proof.
  unfold touched. now destruct (dict_has (config_path w) (files w)).
Qed.

Lemma get_config_file_eq w : get_config_file w = (Ok (config_path w), touched w).
Proof.
  unfold get_config_file, bind, try_except, os_environ, os_path_abspath,
    os_path_expanduser_home, os_path_isfile, when, open_w, ret, touched, config_path.
  destruct (dict_get "CLOUDKNOT_CONFIG_FILE" (environ w)) as [env_file|]; simpl;
    match goal with |- context [dict_has ?p ?fs] => destruct (dict_has p fs) end;
    reflexivity.
Qed.

(** The opening lines shared by every operation: find the file, clear
    [CONFIG] and read the file into it. *)
Lemma load_eq (A : Type) (k : string -> M A) w :
  (config_file <- get_config_file ;;
   CONFIG_clear ;;
   CONFIG_read config_file ;;
   k config_file) w
  = k (config_path w) (with_CONFIG (touched w) (loaded w)).
Proof.
  unfold bind at 1. rewrite get_config_file_eq.
  unfold bind, CONFIG_clear, CONFIG_read, read_file. simpl.
  rewrite touched_file, CONFIG_touched. reflexivity.
Qed.

(** Unfolds the sequencing and the wrappers around [CONFIG]. *)
Ltac run_py :=
  repeat (progress (unfold bind, ret, raise, lift, when, CONFIG_sections,
                    CONFIG_has_section, CONFIG_has_option, CONFIG_get, CONFIG_options,
                    CONFIG_add_section, CONFIG_set, CONFIG_write, CONFIG_query,
                    CONFIG_try, CONFIG_update, CONFIG_remove_option,
                    CONFIG_remove_section, open_w, rebind_client;
                    simpl)).

Lemma loaded_normal w : sections_normal (configparser._sections (loaded w)).
Proof.
  apply ParserFacts.read_normal. apply ParserFacts.sections_normal_nil.
Qed.

Lemma loaded_sections w :
  configparser._sections (loaded w) = configparser._sections (fresh_read w).
Proof.
  apply ParserFacts.read_sections_indep. reflexivity.
Qed.

(** ** Interpolation of plain values *)

Lemma split_at_char_absent c s :
  contains_char c s = false -> split_at_char c s = None.
Proof.
  induction s as [|c' r IH]; simpl; [reflexivity|].
  destruct (Ascii.eqb c' c); simpl; [discriminate|].
  intros H. now rewrite IH.
Qed.

Lemma interpolate_plain levels map v :
  plain v = true ->
  configparser.interpolate_some (S levels) map v = Ok v.
Proof.
  unfold plain. intros H. apply negb_true_iff in H.
  destruct v as [|c r]; simpl; [reflexivity|].
  simpl in H. apply orb_false_iff in H as [H1 H2].
  now rewrite H1, (split_at_char_absent _ _ H2).
Qed.

Lemma before_set_ok v :
  is_ok (configparser.before_set v) = true -> configparser.before_set v = Ok v.
Proof.
  unfold configparser.before_set.
  now destruct (contains_char _ _).
Qed.

(** ** Lines of the file *)















Lemma valid_triple_inv section opt value :
  valid_triple section opt value = true ->
  named_section section = true
  /\ line_text section = true
  /\ option_text opt = true
  /\ line_text value = true
  /\ is_ok (configparser.before_set value) = true.
Proof.
  unfold valid_triple. intros H.
  apply andb_true_iff in H as [H H3]. apply andb_true_iff in H as [H1 H2].
  apply andb_true_iff in H1 as [H0 H1]. apply andb_true_iff in H3 as [H3 H4].
  repeat split; assumption.
Qed.












(** ** The text of a whole file *)


















(** *** The loop over the lines that [write] has put out *)















(** *** Text in, text out *)

(** With no DEFAULT option left in [CONFIG], loading the file gives what a
    parser that has read nothing else gets from it. *)
Lemma loaded_fresh w : no_defaults_left w = true -> loaded w = fresh_read w.
Proof.
  unfold no_defaults_left, loaded, fresh_read, configparser.clear, configparser.new.
  now destruct (configparser._defaults (CONFIG w)).
Qed.

Lemma read_defaults_normal f : forall P,
  dict_normal (configparser._defaults P) ->
  dict_normal (configparser._defaults (configparser.read P f)).
Proof.
  unfold configparser.read. induction f as [|[s lines] r IH]; simpl; intros P H; [assumption|].
  apply IH.
  destruct (dict_get s (configparser._sections P)); simpl; [assumption|].
  destruct (String.eqb s configparser.DEFAULTSECT); simpl; [|assumption].
  now apply ParserFacts.read_options_normal.
Qed.

Lemma read_sections_defaults S : forall P,
  ~ In configparser.DEFAULTSECT (dict_keys S) ->
  configparser._defaults (configparser.read P S) = configparser._defaults P.
Proof.
  unfold configparser.read. induction S as [|[s d] r IH]; simpl; intros P H; [reflexivity|].
  rewrite IH by tauto.
  destruct (dict_get s (configparser._sections P)); simpl; [reflexivity|].
  destruct (String.eqb_spec s configparser.DEFAULTSECT) as [->|N]; [tauto | reflexivity].
Qed.

(** What [write] puts in a file, a new parser reads back, the DEFAULT
    block as well. *)
Lemma read_write_defaults P :
  dict_normal (configparser._defaults P) ->
  sections_normal (configparser._sections P) ->
  configparser._defaults (configparser.read configparser.new (configparser.write P))
  = configparser._defaults P.
Proof.
  intros Hd (_ & Hs & _). unfold configparser.write.
  destruct (configparser._defaults P) as [|kv r] eqn:E.
  - now rewrite read_sections_defaults.
  - change (configparser.read configparser.new
              ((configparser.DEFAULTSECT, kv :: r) :: configparser._sections P))
      with (configparser.read
              {| configparser._defaults := configparser.read_options [] (kv :: r);
                 configparser._sections := [] |}
              (configparser._sections P)).
    rewrite read_sections_defaults by assumption.
    cbn [configparser._defaults]. now apply ParserFacts.read_options_nil.
Qed.



Lemma forallb_dict_del (V : Type) (Q : string * V -> bool) k (d : dict V) :
  forallb Q d = true -> forallb Q (dict_del k d) = true.
Proof.
  unfold dict_del. intros Hd. induction d as [|[k0 v0] r IH]; simpl; [reflexivity|].
  simpl in Hd. apply andb_true_iff in Hd as [H1 H2].
  destruct (negb (String.eqb k0 k)); simpl; [now rewrite H1, (IH H2) | now apply IH].
Qed.








(** ** Writing the config file *)

Lemma config_content_saved w P : config_content (saved w P) = configparser.write P.
Proof.
  unfold config_content, saved. simpl.
  change (config_path (with_files (with_CONFIG (touched w) P) _)) with (config_path (touched w)).
  rewrite config_path_touched. now rewrite dict_get_set_same.
Qed.

Lemma fresh_read_saved w P :
  sections_normal (configparser._sections P) ->
  configparser._sections (fresh_read (saved w P)) = configparser._sections P.
Proof.
  intros H. unfold fresh_read. rewrite config_content_saved.
  now apply ParserFacts.read_write_sections.
Qed.


Lemma get_plain_section P section opt d v :
  section_of P section = Some d ->
  dict_get (configparser.optionxform opt) d = Some v ->
  plain v = true ->
  configparser.get P section opt false None = Ok v.
Proof.
  unfold section_of, configparser.get, configparser.unify_values.
  intros -> E Hp. rewrite E. now apply interpolate_plain.
Qed.

Lemma set_named P section opt value d :
  named_section section = true ->
  is_ok (configparser.before_set value) = true ->
  section_of P section = Some d ->
  configparser.set P section opt value
  = Ok {| configparser._defaults := configparser._defaults P;
          configparser._sections :=
            dict_set section (dict_set (configparser.optionxform opt) value d)
                     (configparser._sections P) |}.
Proof.
  unfold named_section, section_of, configparser.set. intros Hn Hv E.
  apply andb_true_iff in Hn as [H1 H2].
  apply negb_true_iff in H1, H2. rewrite H1, H2, E. simpl.
  rewrite (before_set_ok _ Hv). now destruct (value =? "").
Qed.

Lemma add_resource_eq w section opt value :
  valid_triple section opt value = true ->
  add_resource section opt value w
  = (Ok tt, saved w (upserted (loaded w) section opt value)).
Proof.
  intros H. destruct (valid_triple_inv _ _ _ H) as (Hn & _ & _ & _ & Hv).
  assert (H2 : String.eqb section configparser.DEFAULTSECT = false).
  { unfold named_section in Hn. apply andb_true_iff in Hn as [_ Hn].
    now apply negb_true_iff in Hn. }
  unfold add_resource. rewrite load_eq.
  run_py. unfold configparser.sections. rewrite dict_has_str_in.
  unfold upserted, section_of, dict_has.
  destruct (dict_get section (configparser._sections (loaded w))) as [d|] eqn:E; simpl.
  - rewrite (set_named _ _ _ _ d Hn Hv E). reflexivity.
  - unfold configparser.add_section.
    rewrite H2. unfold dict_has. rewrite E. simpl.
    erewrite set_named; [ | assumption | assumption | unfold section_of; simpl; apply dict_get_set_same].
    simpl. rewrite dict_set_set. reflexivity.
Qed.

Lemma upserted_normal P section opt value :
  named_section section = true ->
  sections_normal (configparser._sections P) ->
  sections_normal (configparser._sections (upserted P section opt value)).
Proof.
  unfold named_section, upserted, section_of. intros Hn H. simpl.
  apply andb_true_iff in Hn as [_ Hn]. apply negb_true_iff in Hn.
  apply ParserFacts.sections_normal_set; [ | | assumption ].
  - intros ->. discriminate.
  - apply ParserFacts.dict_normal_set.
    destruct (dict_get section (configparser._sections P)) as [d|] eqn:E.
    + apply (ParserFacts.sections_normal_get _ _ _ H E).
    + apply ParserFacts.dict_normal_nil.
Qed.





(** ** [remove_resource] *)

Lemma remove_option_named P section opt d :
  named_section section = true ->
  section_of P section = Some d ->
  exists existed,
    configparser.remove_option P section opt = Ok (existed, without P section opt).
Proof.
  unfold named_section, section_of, without, section_of, configparser.remove_option.
  intros Hn E. apply andb_true_iff in Hn as [H1 H2].
  apply negb_true_iff in H1, H2. rewrite H1, H2, E. simpl.
  destruct (dict_has (configparser.optionxform opt) d) eqn:Eh.
  - now exists true.
  - exists false. rewrite (dict_del_absent _ _ _ Eh).
    rewrite (dict_set_same _ _ _ _ E). now destruct P.
Qed.

Lemma remove_option_missing_section P section opt :
  named_section section = true ->
  section_of P section = None ->
  configparser.remove_option P section opt = Raise (NoSectionError section).
Proof.
  unfold named_section, section_of, configparser.remove_option.
  intros Hn E. apply andb_true_iff in Hn as [H1 H2].
  apply negb_true_iff in H1, H2. now rewrite H1, H2, E.
Qed.

Lemma remove_resource_eq w section opt d :
  named_section section = true ->
  section_of (loaded w) section = Some d ->
  remove_resource section opt w = (Ok tt, saved w (without (loaded w) section opt)).
Proof.
  intros Hn E. unfold remove_resource. rewrite load_eq. run_py.
  destruct (remove_option_named _ _ opt _ Hn E) as [existed ->]. reflexivity.
Qed.

Lemma remove_resource_missing_section w section opt :
  named_section section = true ->
  section_of (loaded w) section = None ->
  remove_resource section opt w
  = (Raise (NoSectionError section), with_CONFIG (touched w) (loaded w)).
Proof.
  intros Hn E. unfold remove_resource. rewrite load_eq. run_py.
  now rewrite (remove_option_missing_section _ _ opt Hn E).
Qed.

Lemma without_normal P section opt :
  sections_normal (configparser._sections P) ->
  sections_normal (configparser._sections (without P section opt)).
Proof.
  unfold without, section_of. intros H.
  destruct (dict_get section (configparser._sections P)) as [d|] eqn:E; [|assumption].
  simpl. destruct (ParserFacts.sections_normal_get _ _ _ H E) as [Hs Hd].
  apply ParserFacts.sections_normal_set; auto.
  now apply ParserFacts.dict_normal_del.
Qed.

Lemma section_of_loaded w section :
  section_of (loaded w) section = section_of (fresh_read w) section.
Proof.
  unfold section_of. now rewrite loaded_sections.
Qed.

(** C2, as amended: on a named section, [remove_resource] raises
    [NoSectionError] when the config file has no such section; when it has,
    the call returns, a fresh read shows the section without the option and
    the other sections as they were, and an option that was not there is
    not an error: the section reads back unchanged. *)
Theorem remove_resource_then_fresh_read w section opt :
  named_section section = true ->
  let r := remove_resource section opt w in
  (section_of (fresh_read w) section = None ->
   fst r = Raise (NoSectionError section) /\ files (snd r) = files (touched w))
  /\ (forall d, section_of (fresh_read w) section = Some d ->
      fst r = Ok tt
      /\ section_of (fresh_read (snd r)) section
         = Some (dict_del (configparser.optionxform opt) d)
      /\ dict_get (configparser.optionxform opt)
                  (dict_del (configparser.optionxform opt) d) = None
      /\ (dict_has (configparser.optionxform opt) d = false ->
          section_of (fresh_read (snd r)) section = Some d)
      /\ (forall other, other <> section ->
          section_of (fresh_read (snd r)) other = section_of (fresh_read w) other)).
Proof.
  intros Hn r. unfold r. split.
  - intros E. rewrite <- section_of_loaded in E.
    rewrite (remove_resource_missing_section _ _ opt Hn E). split; reflexivity.
  - intros d E. pose proof E as E'. rewrite <- section_of_loaded in E.
    rewrite (remove_resource_eq _ _ opt _ Hn E). simpl.
    pose proof (fresh_read_saved w _ (without_normal _ section opt (loaded_normal w))) as Es.
    assert (Ea : section_of (fresh_read (saved w (without (loaded w) section opt))) section
                 = Some (dict_del (configparser.optionxform opt) d)).
    { unfold section_of at 1. rewrite Es. unfold without. rewrite E. simpl.
      apply dict_get_set_same. }
    split; [reflexivity|]. split; [exact Ea|]. split; [apply dict_get_del_same|]. split.
    + intros Hh. rewrite Ea. now rewrite dict_del_absent.
    + intros other Ho. unfold section_of at 1. rewrite Es. unfold without. rewrite E. simpl.
      rewrite dict_get_set_other by assumption.
      rewrite <- section_of_loaded. reflexivity.
Qed.

(** The theorem at a file with a [roles] section. *)
Lemma remove_resource_then_fresh_read_witness :
  named_section "roles" = true
  /\ fst (remove_resource "roles" "batch-role" world_with_roles) = Ok tt
  /\ section_of (fresh_read (snd (remove_resource "roles" "batch-role" world_with_roles)))
                "roles" = Some [].
Proof.
  split; [reflexivity|].
  destruct (remove_resource_then_fresh_read world_with_roles "roles" "batch-role"
              eq_refl) as [_ H].
  destruct (H _ eq_refl) as (H1 & H2 & _).
  split; [exact H1 | exact H2].
Defined.

(** C2, as stated, fails: removing an option that the section does not
    have returns normally. *)
Lemma remove_missing_option_returns :
  configparser.has_option (fresh_read world_with_roles) "roles" "no-such-role" = false
  /\ fst (remove_resource "roles" "no-such-role" world_with_roles) = Ok tt
  /\ ~ (exists e, fst (remove_resource "roles" "no-such-role" world_with_roles) = Raise e).
Proof.
  split; [reflexivity|]. split; [reflexivity|].
  intros [e H]. vm_compute in H. discriminate.
Qed.

(** ** [get_region] *)

Lemma interpolate_no_TypeError levels : forall map rest,
  configparser.interpolate_some levels map rest <> Raise TypeError.
Proof.
  induction levels as [|levels IH]; intros map rest; simpl; [discriminate|].
  generalize (String.length rest). intros fuel. revert rest.
  induction fuel as [|fuel IHf]; intros rest; [discriminate|].
  destruct (split_at_char "%"%char rest) as [[before from]|]; [|discriminate].
  destruct from as [|c0 [|c after]]; try discriminate.
  destruct (Ascii.eqb c "%"%char).
  { specialize (IHf after).
    destruct ((fix while (fuel0 : nat) (rest0 : string) {struct fuel0} : Result string := _) fuel after);
      [discriminate | congruence]. }
  destruct (Ascii.eqb c "("%char); [|discriminate].
  destruct (configparser.KEYCRE_match _) as [[name after']|]; [|discriminate].
  destruct (map _) as [v|]; [|discriminate].
  destruct (contains_char "%"%char v).
  - specialize (IH map v).
    destruct (configparser.interpolate_some levels map v); [|congruence].
    specialize (IHf after').
    destruct ((fix while (fuel0 : nat) (rest0 : string) {struct fuel0} : Result string := _) fuel after');
      [discriminate | congruence].
  - specialize (IHf after').
    destruct ((fix while (fuel0 : nat) (rest0 : string) {struct fuel0} : Result string := _) fuel after');
      [discriminate | congruence].
Qed.

Lemma get_no_TypeError P section opt raw fallback :
  configparser.get P section opt raw fallback <> Raise TypeError.
Proof.
  unfold configparser.get, configparser.unify_values.
  destruct (dict_get section (configparser._sections P)).
  - match goal with |- context [match ?x with Some _ => _ | None => _ end] =>
      destruct x end.
    + destruct raw; [discriminate | apply interpolate_no_TypeError].
    + destruct fallback; discriminate.
  - destruct (section =? configparser.DEFAULTSECT)%string.
    + match goal with |- context [match ?x with Some _ => _ | None => _ end] =>
        destruct x end.
      * destruct raw; [discriminate | apply interpolate_no_TypeError].
      * destruct fallback; discriminate.
    + destruct fallback; discriminate.
Qed.

Lemma get_region_stored w :
  stored_region w = true ->
  get_region w
  = (configparser.get (loaded w) "aws" "region" false None,
     with_CONFIG (touched w) (loaded w)).
Proof.
  unfold stored_region. intros H. apply andb_true_iff in H as [H1 H2].
  unfold get_region. rewrite load_eq. run_py.
  rewrite H1. run_py. rewrite H2. reflexivity.
Qed.

(** The region that [get_region] falls back on, computed on the world left
    by the loading of the config file. *)
Lemma fallback_chain_eq w :
  stored_region w = false ->
  forall A (k : string -> M A),
  (region <-
     try_except
       (os_environ "AWS_DEFAULT_REGION")
       (fun e =>
          match e with
          | KeyError _ =>
              Some (home <- os_path_expanduser_home ;;
                    let aws_config_file := os_path_join home [".aws"; "config"] in
                    is_file <- os_path_isfile aws_config_file ;;
                    if is_file then
                      fun w =>
                        let aws_config := read_file configparser.new aws_config_file w in
                        try_except
                          (lift (configparser.get aws_config "default" "region" false
                                                  (Some fallback_region)))
                          (fun e =>
                             match e with
                             | TypeError =>
                                 Some (region <- lift (configparser.get aws_config "default"
                                                                        "region" false None) ;;
                                       ret (if String.eqb region "" then fallback_region
                                            else region))
                             | _ => None
                             end) w
                    else
                      ret fallback_region)
          | _ => None
          end) ;;
   k region) (with_CONFIG (touched w) (loaded w))
  = match region_by_precedence w with
    | Ok region => k region (with_CONFIG (touched w) (loaded w))
    | Raise e => (Raise e, with_CONFIG (touched w) (loaded w))
    end.
Proof.
  intros Hs A k. unfold region_by_precedence. rewrite Hs.
  unfold bind at 1, try_except at 1, os_environ. simpl.
  rewrite environ_touched.
  destruct (dict_get "AWS_DEFAULT_REGION" (environ w)) eqn:E; [reflexivity|].
  unfold ambient_region, ambient_path, os_path_join, bind, os_path_expanduser_home,
    os_path_isfile, try_except, lift, ret, read_file, dict_has. simpl.
  rewrite user_home_touched.
  destruct (dict_get (join2 (join2 (user_home w) ".aws") "config") (files (touched w)))
    as [f|] eqn:Ef; [|reflexivity].
  cbn [files with_CONFIG]. rewrite Ef.
  pose proof (get_no_TypeError (configparser.read configparser.new f) "default" "region"
                               false (Some fallback_region)) as Hn.
  destruct (configparser.get (configparser.read configparser.new f) "default" "region"
                             false (Some fallback_region)) as [region|e]; [reflexivity|].
  destruct e; try reflexivity. congruence.
Qed.








Lemma drop_escaped_plain v :
  contains_char "%"%char v = false -> configparser.drop_escaped v = v.
Proof.
  induction v as [|c r IH]; [reflexivity|].
  intros H. simpl in H. apply orb_false_iff in H as [H1 H2].
  destruct r as [|c' r']; [reflexivity|].
  change (configparser.drop_escaped (String c (String c' r')))
    with (if Ascii.eqb c "%"%char && Ascii.eqb c' "%"%char
          then configparser.drop_escaped r'
          else String c (configparser.drop_escaped (String c' r'))).
  rewrite H1. cbn [andb]. now rewrite (IH H2).
Qed.

Lemma KEYCRE_match_plain v :
  contains_char "%"%char v = false -> configparser.KEYCRE_match v = None.
Proof.
  destruct v as [|c0 [|c1 r]]; try reflexivity.
  intros H. simpl in H. apply orb_false_iff in H as [H1 _].
  unfold configparser.KEYCRE_match. now rewrite H1.
Qed.

Lemma KEYCRE_sub_plain fuel : forall v,
  contains_char "%"%char v = false -> configparser.KEYCRE_sub fuel v = v.
Proof.
  induction fuel as [|fuel IH]; intros v H; [reflexivity|].
  simpl. rewrite (KEYCRE_match_plain v H).
  destruct v as [|c r]; [reflexivity|].
  simpl in H. apply orb_false_iff in H as [_ H2]. now rewrite (IH r H2).
Qed.

Lemma before_set_plain v :
  plain v = true -> is_ok (configparser.before_set v) = true.
Proof.
  unfold plain, configparser.before_set. intros H. apply negb_true_iff in H.
  rewrite (drop_escaped_plain v H), (KEYCRE_sub_plain _ v H), H. reflexivity.
Qed.

Lemma loaded_saved_sections w P :
  sections_normal (configparser._sections P) ->
  configparser._sections (loaded (saved w P)) = configparser._sections P.
Proof.
  intros H. rewrite loaded_sections. now apply fresh_read_saved.
Qed.

Lemma has_option_in_section P section opt d v :
  named_section section = true ->
  section_of P section = Some d ->
  dict_get (configparser.optionxform opt) d = Some v ->
  configparser.has_option P section opt = true.
Proof.
  unfold named_section, section_of, configparser.has_option, dict_has.
  intros Hn E Ev. apply andb_true_iff in Hn as [H1 H2].
  apply negb_true_iff in H1, H2. now rewrite H1, H2, E, Ev.
Qed.

Lemma section_of_upserted P section opt value :
  section_of (upserted P section opt value) section
  = Some (dict_set (configparser.optionxform opt) value
            match section_of P section with Some d => d | None => [] end).
Proof.
  unfold upserted, section_of. simpl. apply dict_get_set_same.
Qed.

Lemma stored_region_file w :
  stored_region w = true -> dict_has (config_path w) (files w) = true.
Proof.
  unfold stored_region, loaded, config_content, dict_has.
  destruct (dict_get (config_path w) (files w)); [reflexivity|].
  intros H. apply andb_true_iff in H as [H _]. discriminate.
Qed.




(** ** [set_region] *)

Lemma set_region_unknown w names region :
  dict_has "ec2" (clients w) = true ->
  region_catalog w = Ok names ->
  str_in region names = false ->
  set_region region w = (Raise (KeyError "regions"), w).
Proof.
  unfold set_region, describe_regions, dict_has. intros Hc Hn Hr.
  unfold bind at 1. destruct (dict_get "ec2" (clients w)); [|discriminate].
  rewrite Hn. unfold bind at 1. rewrite Hr. reflexivity.
Qed.

(** C5 at a region that the catalog does not list: nothing is written, and
    the exception is the [KeyError] of the formatting of the message, not
    the [ValueError] that the message was for. *)
Theorem set_region_unknown_region_raises_KeyError :
  region_catalog world_region_all
  = Ok ["us-east-1"; "us-west-2"; "eu-west-1"; "ap-south-1"]
  /\ set_region "mars-1" world_region_all = (Raise (KeyError "regions"), world_region_all)
  /\ forall msg, fst (set_region "mars-1" world_region_all) <> Raise (ValueError msg).
Proof.
  split; [reflexivity|]. split.
  - now apply set_region_unknown with (names := ["us-east-1"; "us-west-2"; "eu-west-1"; "ap-south-1"]).
  - intros msg. rewrite (set_region_unknown world_region_all
                           ["us-east-1"; "us-west-2"; "eu-west-1"; "ap-south-1"] "mars-1"
                           eq_refl eq_refl eq_refl).
    discriminate.
Qed.

(** ** [verify_sections] *)

Lemma filter_filter (A : Type) (f g : A -> bool) (l : list A) :
  filter f (filter g l) = filter (fun x => g x && f x) l.
Proof.
  induction l as [|x r IH]; simpl; [reflexivity|].
  destruct (g x); simpl; [destruct (f x)|]; now rewrite IH.
Qed.

Lemma filter_all (A : Type) (f : A -> bool) (l : list A) :
  (forall x, In x l -> f x = true) -> filter f l = l.
Proof.
  induction l as [|x r IH]; simpl; intros H; [reflexivity|].
  rewrite (H x (or_introl eq_refl)). f_equal. apply IH. auto.
Qed.

Lemma remove_section_eq P section :
  snd (configparser.remove_section P section)
  = {| configparser._defaults := configparser._defaults P;
       configparser._sections := dict_del section (configparser._sections P) |}.
Proof.
  unfold configparser.remove_section. simpl.
  destruct (dict_has section (configparser._sections P)) eqn:E; [reflexivity|].
  rewrite (dict_del_absent _ _ _ E). now destruct P.
Qed.

(** The loop of [verify_sections] over a list of names. *)
Lemma verify_loop names : forall w P,
  for_each names
    (fun section =>
       when (negb (section_approved section))
            (CONFIG_remove_section section ;; ret tt))
    (with_CONFIG w P)
  = (Ok tt,
     with_CONFIG w
       {| configparser._defaults := configparser._defaults P;
          configparser._sections :=
            filter (fun kv => negb (str_in (fst kv) names
                                    && negb (section_approved (fst kv))))
                   (configparser._sections P) |}).
Proof.
  induction names as [|name rest IH]; intros w P.
  - simpl. unfold ret. rewrite filter_all by reflexivity. now destruct P.
  - cbn [for_each]. unfold bind at 1.
    destruct (section_approved name) eqn:Ea.
    + cbn [negb when]. unfold ret at 1. rewrite IH. do 3 f_equal.
      apply filter_ext. intros [k v]. cbn [fst str_in existsb].
      fold (str_in k rest).
      destruct (String.eqb_spec k name) as [->|N]; [|reflexivity].
      rewrite Ea. cbn [negb]. now rewrite !andb_false_r.
    + cbn [negb when]. unfold bind at 1, CONFIG_remove_section at 1.
      cbn [CONFIG with_CONFIG].
      pose proof (remove_section_eq P name) as Er.
      destruct (configparser.remove_section P name) as [existed P']. cbn [snd] in Er.
      subst P'. unfold ret at 1.
      change (with_CONFIG (with_CONFIG w P) ?Q) with (with_CONFIG w Q).
      rewrite IH. cbn [configparser._defaults configparser._sections].
      do 3 f_equal. unfold dict_del. rewrite filter_filter.
      apply filter_ext. intros [k v]. cbn [fst str_in existsb].
      fold (str_in k rest).
      destruct (String.eqb_spec k name) as [->|N]; [now rewrite Ea|reflexivity].
Qed.

Lemma verify_sections_eq w :
  verify_sections w = (Ok tt, with_CONFIG (touched w) (verified (loaded w))).
Proof.
  unfold verify_sections. rewrite load_eq.
  unfold bind at 1, CONFIG_sections, CONFIG_query. cbn [CONFIG with_CONFIG].
  change (with_CONFIG (touched w) (loaded w))
    with (with_CONFIG (touched w) (loaded w)).
  rewrite verify_loop.
  unfold verified. do 3 f_equal.
  apply filter_ext_in. intros [k v] Hin. cbn [fst].
  assert (Hk : str_in k (configparser.sections (loaded w)) = true).
  { apply str_in_In. unfold configparser.sections, dict_keys.
    apply in_map_iff. now exists (k, v). }
  rewrite Hk. now destruct (section_approved k).
Qed.

(** [verify_sections] never writes: the files are those that
    [get_config_file] left. *)
Lemma verify_sections_files w : files (snd (verify_sections w)) = files (touched w).
Proof.
  now rewrite verify_sections_eq.
Qed.

(** C6 at a config file with a section that is not approved: the section
    leaves [CONFIG], but the file is not written and a fresh read still
    shows it. *)
Theorem verify_sections_leaves_file :
  section_approved "scratch" = false
  /\ fst (verify_sections world_with_stray_section) = Ok tt
  /\ configparser.sections (CONFIG (snd (verify_sections world_with_stray_section)))
     = ["roles"]
  /\ files (snd (verify_sections world_with_stray_section))
     = files world_with_stray_section
  /\ configparser.sections (fresh_read (snd (verify_sections world_with_stray_section)))
     = ["roles"; "scratch"].
Proof.
  repeat split; reflexivity.
Qed.

Lemma config_content_touched w : config_content (touched w) = config_content w.
Proof.
  unfold config_content at 1. rewrite config_path_touched, touched_file. reflexivity.
Qed.

Lemma touched_idem w : touched (touched w) = touched w.
Proof.
  apply touched_existing. rewrite config_path_touched. apply touched_has_file.
Qed.

(** After [verify_sections] the file is there, and loading it again gives
    the sections of the first load. *)
Lemma loaded_after_verify w :
  configparser._sections (loaded (snd (verify_sections w)))
  = configparser._sections (loaded w).
Proof.
  rewrite verify_sections_eq. cbn [snd].
  rewrite !loaded_sections. unfold fresh_read.
  change (config_content (with_CONFIG (touched w) (verified (loaded w))))
    with (config_content (touched w)).
  now rewrite config_content_touched.
Qed.

Lemma touched_after_verify w :
  touched (snd (verify_sections w)) = snd (verify_sections w).
Proof.
  rewrite verify_sections_eq. cbn [snd].
  apply touched_existing.
  change (dict_has (config_path (touched w)) (files (touched w)) = true).
  rewrite config_path_touched. apply touched_has_file.
Qed.

(** C9: running [verify_sections] a second time returns as the first run
    did and leaves the same sections, with the same content, and the same
    files. *)
Theorem verify_sections_idempotent w :
  let once := verify_sections w in
  let twice := verify_sections (snd once) in
  fst once = Ok tt
  /\ fst twice = Ok tt
  /\ configparser._sections (CONFIG (snd twice)) = configparser._sections (CONFIG (snd once))
  /\ configparser.sections (CONFIG (snd twice)) = configparser.sections (CONFIG (snd once))
  /\ files (snd twice) = files (snd once).
Proof.
  intros once twice.
  assert (Es : configparser._sections (CONFIG (snd twice))
               = configparser._sections (CONFIG (snd once))).
  { unfold twice. rewrite (verify_sections_eq (snd once)). cbn [snd CONFIG with_CONFIG].
    unfold verified at 1. cbn [configparser._sections].
    unfold once. rewrite loaded_after_verify.
    rewrite verify_sections_eq. reflexivity. }
  split; [unfold once; now rewrite verify_sections_eq|].
  split; [unfold twice; now rewrite verify_sections_eq|].
  split; [exact Es|]. split.
  - unfold configparser.sections. now rewrite Es.
  - unfold twice. rewrite verify_sections_files.
    unfold once. now rewrite touched_after_verify.
Qed.

(** ** [prune] *)

Lemma bind_ext (A B : Type) (m : M A) (k k' : A -> M B) w :
  (forall a w', k a w' = k' a w') -> bind m k w = bind m k' w.
Proof.
  intros H. unfold bind. destruct (m w) as [[a|e] w']; [apply H | reflexivity].
Qed.

Lemma bind_ret_tt (m : M unit) w : bind m (fun _ => ret tt) w = m w.
Proof.
  unfold bind, ret. now destruct (m w) as [[[]|e] w'].
Qed.

Lemma for_each_app (A : Type) (body : A -> M unit) (l1 l2 : list A) : forall w,
  for_each (l1 ++ l2) body w
  = match for_each l1 body w with
    | (Ok _, w') => for_each l2 body w'
    | (Raise e, w') => (Raise e, w')
    end.
Proof.
  induction l1 as [|x r IH]; intros w; [reflexivity|].
  simpl. unfold bind. destruct (body x w) as [[[]|e] w']; [apply IH | reflexivity].
Qed.

Lemma for_each_ret (A : Type) (l : list A) w :
  for_each l (fun _ => ret tt) w = (Ok tt, w).
Proof.
  induction l as [|x r IH]; [reflexivity|]. simpl. unfold bind, ret at 1. apply IH.
Qed.

(** [prune] is [verify_sections], the loading of the file and the steps of
    [prune_plan]. *)
Lemma prune_unfold w :
  prune w
  = (verify_sections ;;
     config_file <- get_config_file ;;
     CONFIG_clear ;;
     CONFIG_read config_file ;;
     for_each prune_plan run_step) w.
Proof.
  unfold prune, prune_plan. cbn [for_each].
  repeat (apply bind_ext; intros).
  unfold run_step at 1. cbn [fst snd].
  symmetry. apply bind_ret_tt.
Qed.

Lemma remove_option_without P section opt d :
  named_section section = true ->
  section_of P section = Some d ->
  exists existed,
    configparser.remove_option P section opt
    = Ok (existed,
          {| configparser._defaults := configparser._defaults P;
             configparser._sections :=
               dict_set section (dict_del (configparser.optionxform opt) d)
                        (configparser._sections P) |}).
Proof.
  intros Hn E. destruct (remove_option_named P section opt d Hn E) as [existed H].
  exists existed. rewrite H. unfold without. now rewrite E.
Qed.

Lemma pruned_dict_nil is_gone d : pruned_dict is_gone [] d = d.
Proof.
  unfold pruned_dict. now apply filter_all.
Qed.

Lemma pruned_dict_kept is_gone name rest d :
  is_gone name = false ->
  pruned_dict is_gone (name :: rest) d = pruned_dict is_gone rest d.
Proof.
  intros H. unfold pruned_dict. apply filter_ext. intros kv.
  unfold removed_by. cbn [existsb]. now rewrite H.
Qed.

Lemma pruned_dict_gone is_gone name rest d :
  is_gone name = true ->
  pruned_dict is_gone rest (dict_del (configparser.optionxform name) d)
  = pruned_dict is_gone (name :: rest) d.
Proof.
  intros H. unfold pruned_dict, dict_del. rewrite filter_filter.
  apply filter_ext. intros [k v]. unfold removed_by. cbn [existsb fst].
  rewrite H. cbn [andb]. rewrite (String.eqb_sym k). now rewrite negb_orb.
Qed.

Lemma calls_calls w c c' :
  with_resource_calls (with_resource_calls w c) c' = with_resource_calls w c'.
Proof. reflexivity. Qed.

Lemma CONFIG_calls w P c Q :
  with_CONFIG (with_resource_calls (with_CONFIG w P) c) Q
  = with_resource_calls (with_CONFIG w Q) c.
Proof. reflexivity. Qed.

Lemma instantiate_eq cls keyword name w P calls :
  instantiate cls keyword name (with_resource_calls (with_CONFIG w P) calls)
  = (match resource_state w (mk_call cls keyword name) with
     | None => Ok tt
     | Some e => Raise e
     end,
     with_resource_calls (with_CONFIG w P) (calls ++ [mk_call cls keyword name])).
Proof.
  unfold instantiate, mk_call. cbn [resource_state with_resource_calls with_CONFIG resource_calls].
  now destruct (resource_state w _).
Qed.

Lemma CONFIG_remove_option_eq section name w P calls d :
  named_section section = true ->
  section_of P section = Some d ->
  exists existed,
    CONFIG_remove_option section name (with_resource_calls (with_CONFIG w P) calls)
    = (Ok existed,
       with_resource_calls
         (with_CONFIG w
            {| configparser._defaults := configparser._defaults P;
               configparser._sections :=
                 dict_set section (dict_del (configparser.optionxform name) d)
                          (configparser._sections P) |})
         calls).
Proof.
  intros Hn E. unfold CONFIG_remove_option.
  change (CONFIG (with_resource_calls (with_CONFIG w P) calls)) with P.
  destruct (remove_option_without P section name d Hn E) as [existed ->].
  now exists existed.
Qed.

(** The body of a pruning loop over names whose checks pass: the names
    that are gone leave the section, the calls are recorded. *)
Lemma prune_names_pass section cls keyword names : forall w P d calls,
  named_section section = true ->
  section_of P section = Some d ->
  forallb (passes (resource_state w) cls keyword) names = true ->
  for_each names
    (fun name =>
       try_except
         (instantiate cls keyword name)
         (fun e =>
            match e with
            | ResourceDoesNotExistException =>
                Some (CONFIG_remove_option section name ;; ret tt)
            | _ => None
            end))
    (with_resource_calls (with_CONFIG w P) calls)
  = (Ok tt,
     with_resource_calls
       (with_CONFIG w (pruned (resource_state w) P section cls keyword names))
       (calls ++ map (mk_call cls keyword) names)).
Proof.
  induction names as [|name rest IH]; intros w P d calls Hn E Hp.
  - cbn [for_each map]. unfold ret, pruned. rewrite E, pruned_dict_nil, app_nil_r.
    rewrite (dict_set_same _ _ _ _ E). now destruct P.
  - cbn [forallb] in Hp. apply andb_true_iff in Hp as [Hp1 Hp2].
    cbn [for_each map]. unfold bind at 1, try_except at 1.
    rewrite instantiate_eq.
    unfold passes, failure in Hp1.
    assert (Eg : gone (resource_state w) cls keyword name
                 = match resource_state w (mk_call cls keyword name) with
                   | Some ResourceDoesNotExistException => true
                   | _ => false
                   end) by reflexivity.
    destruct (resource_state w (mk_call cls keyword name)) as [e|].
    + destruct e; try discriminate.
      unfold bind at 1.
      destruct (CONFIG_remove_option_eq section name w P
                  (calls ++ [mk_call cls keyword name]) d Hn E) as [existed ->].
      unfold ret at 1.
      erewrite IH; [ | exact Hn | unfold section_of; cbn [configparser._sections];
                                    apply dict_get_set_same | exact Hp2 ].
      rewrite <- app_assoc. cbn [app]. do 3 f_equal.
      unfold pruned, section_of. cbn [configparser._sections configparser._defaults].
      rewrite dict_get_set_same. unfold section_of in E. rewrite E.
      rewrite dict_set_set. now rewrite (pruned_dict_gone _ _ _ _ Eg).
    + rewrite (IH w P d _ Hn E Hp2).
      rewrite <- app_assoc. cbn [app]. do 3 f_equal.
      unfold pruned. rewrite E. now rewrite (pruned_dict_kept _ _ _ _ Eg).
Qed.

(** A name whose check fails in another way ends the loop: the exception
    leaves it, after the names before it have been dealt with. *)
Lemma prune_names_fail section cls keyword pre name post e : forall w P d calls,
  named_section section = true ->
  section_of P section = Some d ->
  forallb (passes (resource_state w) cls keyword) pre = true ->
  failure (resource_state w) cls keyword name = Some e ->
  for_each (pre ++ name :: post)
    (fun name =>
       try_except
         (instantiate cls keyword name)
         (fun e =>
            match e with
            | ResourceDoesNotExistException =>
                Some (CONFIG_remove_option section name ;; ret tt)
            | _ => None
            end))
    (with_resource_calls (with_CONFIG w P) calls)
  = (Raise e,
     with_resource_calls
       (with_CONFIG w (pruned (resource_state w) P section cls keyword pre))
       (calls ++ map (mk_call cls keyword) (pre ++ [name]))).
Proof.
  intros w P d calls Hn E Hp Hf.
  rewrite for_each_app, (prune_names_pass section cls keyword pre w P d calls Hn E Hp).
  cbn [for_each]. unfold bind at 1, try_except at 1. rewrite instantiate_eq.
  unfold failure in Hf. rewrite map_app, app_assoc. cbn [map].
  destruct (resource_state w (mk_call cls keyword name)) as [e'|]; [|discriminate].
  destruct e'; first [discriminate | injection Hf as <-; reflexivity].
Qed.

Lemma options_of_section P section d :
  section_of P section = Some d ->
  configparser.options P section
  = Ok (dict_keys (dict_update d (configparser._defaults P))).
Proof.
  unfold section_of, configparser.options. now intros ->.
Qed.

Lemma has_section_of P section :
  configparser.has_section P section = true ->
  exists d, section_of P section = Some d.
Proof.
  unfold configparser.has_section, dict_has, section_of.
  destruct (dict_get section (configparser._sections P)) as [d|]; [eauto | discriminate].
Qed.

Lemma CONFIG_options_eq section w P calls :
  CONFIG_options section (with_resource_calls (with_CONFIG w P) calls)
  = (configparser.options P section, with_resource_calls (with_CONFIG w P) calls).
Proof. reflexivity. Qed.

(** A step that passes. *)
Lemma run_step_pass step w P calls :
  named_section (fst step) = true ->
  step_passes (resource_state w) P step = true ->
  run_step step (with_resource_calls (with_CONFIG w P) calls)
  = (Ok tt,
     with_resource_calls (with_CONFIG w (pruned_step (resource_state w) P step))
                         (calls ++ step_calls P step)).
Proof.
  destruct step as [section [[cls keyword]|]]; unfold step_passes, run_step, pruned_step,
    step_calls, step_names; cbn [fst snd]; intros Hn H;
    apply andb_true_iff in H as [Hs Hp];
    destruct (has_section_of _ _ Hs) as [d E].
  - unfold prune_loop, bind at 1. rewrite CONFIG_options_eq.
    rewrite (options_of_section _ _ _ E) in *.
    now apply prune_names_pass with (d := d).
  - unfold bind at 1. rewrite CONFIG_options_eq, (options_of_section _ _ _ E).
    rewrite for_each_ret. now rewrite app_nil_r.
Qed.

(** Steps that pass one after the other. *)
Lemma run_plan_pass plan : forall w P calls,
  forallb (fun step => named_section (fst step)) plan = true ->
  plan_passes (resource_state w) P plan = true ->
  for_each plan run_step (with_resource_calls (with_CONFIG w P) calls)
  = (Ok tt,
     with_resource_calls
       (with_CONFIG w (fold_left (pruned_step (resource_state w)) plan P))
       (calls ++ plan_calls (resource_state w) P plan)).
Proof.
  induction plan as [|step rest IH]; intros w P calls Hn Hp.
  - cbn. now rewrite app_nil_r.
  - cbn [forallb] in Hn. apply andb_true_iff in Hn as [Hn1 Hn2].
    cbn [plan_passes] in Hp. apply andb_true_iff in Hp as [Hp1 Hp2].
    cbn [for_each fold_left plan_calls]. unfold bind at 1.
    rewrite (run_step_pass step w P calls Hn1 Hp1).
    rewrite (IH w _ _ Hn2 Hp2). now rewrite app_assoc.
Qed.

Lemma resource_state_touched w : resource_state (touched w) = resource_state w.
Proof.
  unfold touched. now destruct (dict_has (config_path w) (files w)).
Qed.

Lemma resource_calls_touched w : resource_calls (touched w) = resource_calls w.
Proof.
  unfold touched. now destruct (dict_has (config_path w) (files w)).
Qed.

(** [prune] is the run of the plan on the file as loaded after
    [verify_sections]. *)
Lemma prune_eq w :
  prune w
  = for_each prune_plan run_step
      (with_resource_calls (with_CONFIG (touched w) (prune_start w)) (resource_calls w)).
Proof.
  rewrite prune_unfold. unfold bind at 1.
  pose proof (touched_after_verify w) as Ht. unfold prune_start.
  rewrite verify_sections_eq in *. cbn [snd] in *.
  rewrite load_eq. rewrite Ht, <- resource_calls_touched. reflexivity.
Qed.

(** *** [prune] never writes *)

Lemma same_disk_refl w : same_disk w w.
Proof. repeat split. Qed.

Lemma same_disk_trans w1 w2 w3 : same_disk w1 w2 -> same_disk w2 w3 -> same_disk w1 w3.
Proof.
  intros (A1 & A2 & A3 & A4) (B1 & B2 & B3 & B4). repeat split; congruence.
Qed.

Lemma same_disk_touched w : same_disk (touched w) (touched (touched w)).
Proof. rewrite touched_idem. apply same_disk_refl. Qed.

Lemma config_path_same_disk w w' : same_disk w w' -> config_path w' = config_path w.
Proof.
  intros (_ & H2 & H3 & H4). unfold config_path. now rewrite H2, H3, H4.
Qed.

Lemma fresh_read_same_disk w w' : same_disk w w' -> fresh_read w' = fresh_read w.
Proof.
  intros H. pose proof (config_path_same_disk w w' H) as Hp.
  destruct H as (H1 & _). unfold fresh_read, config_content. now rewrite Hp, H1.
Qed.

Lemma keeps_disk_ret (A : Type) (a : A) : keeps_disk (ret a).
Proof. intros w. apply same_disk_refl. Qed.

Lemma keeps_disk_bind (A B : Type) (m : M A) (k : A -> M B) :
  keeps_disk m -> (forall a, keeps_disk (k a)) -> keeps_disk (bind m k).
Proof.
  intros Hm Hk w. unfold bind. specialize (Hm w).
  destruct (m w) as [[a|e] w']; cbn [snd] in *; [|assumption].
  exact (same_disk_trans _ _ _ Hm (Hk a w')).
Qed.

Lemma keeps_disk_try (A : Type) (body : M A) (handler : exn -> option (M A)) :
  keeps_disk body ->
  (forall e h, handler e = Some h -> keeps_disk h) ->
  keeps_disk (try_except body handler).
Proof.
  intros Hb Hh w. unfold try_except. specialize (Hb w).
  destruct (body w) as [[a|e] w']; cbn [snd] in *; [assumption|].
  destruct (handler e) as [h|] eqn:E; [|assumption].
  exact (same_disk_trans _ _ _ Hb (Hh e h E w')).
Qed.

Lemma keeps_disk_for_each (A : Type) (l : list A) (body : A -> M unit) :
  (forall x, keeps_disk (body x)) -> keeps_disk (for_each l body).
Proof.
  intros Hb. induction l as [|x r IH]; [apply keeps_disk_ret|].
  cbn [for_each]. apply keeps_disk_bind; [apply Hb | intros _; apply IH].
Qed.

Lemma keeps_disk_CONFIG_options section : keeps_disk (CONFIG_options section).
Proof. intros w. apply same_disk_refl. Qed.

Lemma keeps_disk_CONFIG_remove_option section name :
  keeps_disk (CONFIG_remove_option section name).
Proof.
  intros w. unfold CONFIG_remove_option.
  destruct (configparser.remove_option (CONFIG w) section name) as [[existed P]|e];
    repeat split.
Qed.

Lemma keeps_disk_instantiate cls keyword name :
  keeps_disk (instantiate cls keyword name).
Proof.
  intros w. unfold instantiate. destruct (resource_state w _); repeat split.
Qed.

Lemma keeps_disk_run_step step : keeps_disk (run_step step).
Proof.
  destruct step as [section [[cls keyword]|]]; unfold run_step; cbn [fst snd].
  - unfold prune_loop. apply keeps_disk_bind; [apply keeps_disk_CONFIG_options|].
    intros names. apply keeps_disk_for_each. intros name.
    apply keeps_disk_try; [apply keeps_disk_instantiate|].
    intros e h E. destruct e; try discriminate. injection E as <-.
    apply keeps_disk_bind; [apply keeps_disk_CONFIG_remove_option|].
    intros _. apply keeps_disk_ret.
  - apply keeps_disk_bind; [apply keeps_disk_CONFIG_options|].
    intros names. apply keeps_disk_for_each. intros _. apply keeps_disk_ret.
Qed.

Lemma prune_same_disk w : same_disk (touched w) (snd (prune w)).
Proof.
  rewrite prune_eq.
  exact (keeps_disk_for_each _ prune_plan run_step keeps_disk_run_step
           (with_resource_calls (with_CONFIG (touched w) (prune_start w))
                                (resource_calls w))).
Qed.

(** Whatever the existence checks answer, [prune] leaves the files as
    [get_config_file] left them: what it removes, it removes from [CONFIG]
    only. *)
Lemma prune_files w : files (snd (prune w)) = files (touched w).
Proof.
  apply prune_same_disk.
Qed.

Lemma fresh_read_touched w : fresh_read (touched w) = fresh_read w.
Proof.
  unfold fresh_read. now rewrite config_content_touched.
Qed.

(** A fresh read of the config file after [prune] gives what a fresh read
    before it gave. *)
Lemma prune_fresh_read w : fresh_read (snd (prune w)) = fresh_read w.
Proof.
  rewrite (fresh_read_same_disk _ _ (prune_same_disk w)). apply fresh_read_touched.
Qed.

(** And so does a fresh read after [verify_sections]. *)
Lemma verify_sections_fresh_read w :
  fresh_read (snd (verify_sections w)) = fresh_read w.
Proof.
  rewrite verify_sections_eq. cbn [snd].
  change (fresh_read (with_CONFIG (touched w) (verified (loaded w))))
    with (fresh_read (touched w)).
  apply fresh_read_touched.
Qed.

(** C7 at a [roles] section with a role that exists and one that does not:
    [prune] returns, [CONFIG] keeps the role that exists only, and the
    config file still has both. *)
Theorem prune_leaves_file :
  fst (prune world_two_roles) = Ok tt
  /\ section_of (CONFIG (snd (prune world_two_roles))) "roles"
     = Some [("knot-role", "arn:aws:iam::1:role/knot-role")]
  /\ files (snd (prune world_two_roles)) = files world_two_roles
  /\ section_of (fresh_read (snd (prune world_two_roles))) "roles"
     = Some [("knot-role", "arn:aws:iam::1:role/knot-role");
             ("stale-role", "arn:aws:iam::1:role/stale-role")].
Proof.
  repeat split; reflexivity.
Qed.

(** With lower-case names that cover the section, as [options] gives them
    for a file that was read, the survivors are the entries that were not
    found gone. *)
Lemma pruned_dict_lower is_gone names d :
  (forall n, In n names -> lower n = n) ->
  (forall kv, In kv d -> In (fst kv) names) ->
  pruned_dict is_gone names d = filter (fun kv => negb (is_gone (fst kv))) d.
Proof.
  intros Hl Hc. unfold pruned_dict. apply filter_ext_in. intros [k v] Hin.
  cbn [fst]. f_equal. unfold removed_by.
  destruct (is_gone k) eqn:Eg.
  - apply existsb_exists. exists k. split; [exact (Hc _ Hin)|].
    rewrite Eg. unfold configparser.optionxform.
    rewrite (Hl k (Hc _ Hin)). now rewrite String.eqb_refl.
  - destruct (existsb _ names) eqn:Ee; [|reflexivity].
    apply existsb_exists in Ee as [n [Hn Hb]].
    apply andb_true_iff in Hb as [Hg He]. apply String.eqb_eq in He.
    unfold configparser.optionxform in He. rewrite (Hl n Hn) in He. congruence.
Qed.

(** *** What a step leaves alone *)

Lemma defaults_pruned_step state P step :
  configparser._defaults (pruned_step state P step) = configparser._defaults P.
Proof.
  destruct step as [section [[cls keyword]|]]; unfold pruned_step, pruned; cbn [fst snd];
    [|reflexivity].
  now destruct (section_of P section).
Qed.

Lemma section_of_pruned_other state P section cls keyword names s :
  s <> section ->
  section_of (pruned state P section cls keyword names) s = section_of P s.
Proof.
  intros N. unfold pruned. destruct (section_of P section) as [d|]; [|reflexivity].
  unfold section_of. cbn [configparser._sections]. now apply dict_get_set_other.
Qed.

Lemma section_of_pruned_step_other state P step s :
  s <> fst step ->
  section_of (pruned_step state P step) s = section_of P s.
Proof.
  destruct step as [section [[cls keyword]|]]; unfold pruned_step; cbn [fst snd];
    [|reflexivity].
  apply section_of_pruned_other.
Qed.

Lemma section_of_pruned_step_None state P step s :
  section_of P s = None -> section_of (pruned_step state P step) s = None.
Proof.
  intros E. destruct (String.eqb_spec s (fst step)) as [->|N].
  - destruct step as [section [[cls keyword]|]]; unfold pruned_step, pruned; cbn [fst snd] in *;
      [now rewrite E | assumption].
  - now rewrite section_of_pruned_step_other.
Qed.

Lemma section_of_fold_None state plan : forall P s,
  section_of P s = None ->
  section_of (fold_left (pruned_step state) plan P) s = None.
Proof.
  induction plan as [|step rest IH]; intros P s E; [assumption|].
  cbn [fold_left]. apply IH. now apply section_of_pruned_step_None.
Qed.

Lemma section_of_fold_other state plan : forall P s,
  ~ In s (map fst plan) ->
  section_of (fold_left (pruned_step state) plan P) s = section_of P s.
Proof.
  induction plan as [|step rest IH]; intros P s Hn; [reflexivity|].
  cbn [fold_left]. simpl in Hn. rewrite IH by tauto.
  apply section_of_pruned_step_other. intros ->. apply Hn. now left.
Qed.

Lemma defaults_fold state plan : forall P,
  configparser._defaults (fold_left (pruned_step state) plan P)
  = configparser._defaults P.
Proof.
  induction plan as [|step rest IH]; intros P; [reflexivity|].
  cbn [fold_left]. now rewrite IH, defaults_pruned_step.
Qed.

Lemma options_fold_other state plan P s :
  ~ In s (map fst plan) ->
  configparser.options (fold_left (pruned_step state) plan P) s
  = configparser.options P s.
Proof.
  intros Hn. unfold configparser.options.
  pose proof (section_of_fold_other state plan P s Hn) as E. unfold section_of in E.
  now rewrite E, defaults_fold.
Qed.

Lemma step_names_fold_other state plan P step :
  ~ In (fst step) (map fst plan) ->
  step_names (fold_left (pruned_step state) plan P) step = step_names P step.
Proof.
  intros Hn. unfold step_names. now rewrite options_fold_other.
Qed.

(** The section of a step of the plan, once the plan has run: its options
    without those that the step found gone. *)
Lemma section_of_fold_step state plan : forall P section cls keyword d,
  NoDup (map fst plan) ->
  In (section, Some (cls, keyword)) plan ->
  section_of P section = Some d ->
  section_of (fold_left (pruned_step state) plan P) section
  = Some (pruned_dict (gone state cls keyword)
                      (step_names P (section, Some (cls, keyword))) d).
Proof.
  induction plan as [|step rest IH]; intros P section cls keyword d Hnd Hin E; [destruct Hin|].
  cbn [map] in Hnd. inversion Hnd as [|? ? Hfresh Hnd']; subst.
  cbn [fold_left]. destruct Hin as [->|Hin].
  - cbn [fst] in Hfresh. rewrite section_of_fold_other by assumption.
    unfold pruned_step, pruned. cbn [fst snd]. rewrite E.
    unfold section_of. cbn [configparser._sections]. apply dict_get_set_same.
  - assert (N : section <> fst step).
    { intros ->. apply Hfresh. apply in_map_iff.
      now exists (fst step, Some (cls, keyword)). }
    rewrite (IH (pruned_step state P step) section cls keyword d Hnd' Hin).
    + unfold step_names. cbn [fst]. unfold configparser.options.
      pose proof (section_of_pruned_step_other state P step section N) as Es.
      unfold section_of in Es. now rewrite Es, defaults_pruned_step.
    + now rewrite section_of_pruned_step_other.
Qed.

(** *** Running the plan up to a step *)

Lemma prune_plan_names : NoDup (map fst prune_plan).
Proof.
  unfold prune_plan. cbn [map fst].
  repeat (constructor; [cbn [In]; intros H; repeat (destruct H as [H|H]; [discriminate|]); exact H|]).
  constructor.
Qed.

Lemma NoDup_app_apart (A : Type) (l1 l2 : list A) :
  NoDup (l1 ++ l2) -> forall a, In a l1 -> ~ In a l2.
Proof.
  induction l1 as [|x l IH]; intros H a Ha; [destruct Ha|].
  cbn [app] in H. apply NoDup_cons_iff in H as [Hx Hl].
  destruct Ha as [->|Ha]; [|now apply IH].
  intros Hin. apply Hx. apply in_or_app. now right.
Qed.

Lemma prune_plan_split done step rest :
  prune_plan = (done ++ step :: rest)%list ->
  forallb (fun s => named_section (fst s)) done = true
  /\ named_section (fst step) = true
  /\ ~ In (fst step) (map fst done)
  /\ (forall s, In s rest -> fst s <> fst step /\ ~ In (fst s) (map fst done))
  /\ NoDup (map fst done).
Proof.
  intros H.
  assert (Hn : forallb (fun s => named_section (fst s)) prune_plan = true) by reflexivity.
  pose proof prune_plan_names as Hd.
  rewrite H in Hn, Hd. rewrite forallb_app in Hn. cbn [forallb] in Hn.
  apply andb_true_iff in Hn as [Hn1 Hn2]. apply andb_true_iff in Hn2 as [Hn2 _].
  rewrite map_app in Hd. cbn [map] in Hd.
  split; [exact Hn1|]. split; [exact Hn2|].
  pose proof (NoDup_remove_2 _ _ _ Hd) as Hfresh.
  pose proof (NoDup_remove_1 _ _ _ Hd) as Hd'.
  split; [|split; [|exact (NoDup_app_remove_r _ _ Hd')]].
  - intros Hin. apply Hfresh. apply in_or_app. now left.
  - intros s Hs.
    assert (Hs' : In (fst s) (map fst rest)) by (apply in_map_iff; now exists s).
    split.
    + intros E. apply Hfresh. apply in_or_app. right. now rewrite <- E.
    + intros Hin. exact (NoDup_app_apart _ _ _ Hd' _ Hin Hs').
Qed.

(** When the steps before [step] pass, [prune] comes to [step] with
    [CONFIG] pruned by them and their calls recorded. *)
Lemma prune_at w done step rest :
  prune_plan = (done ++ step :: rest)%list ->
  plan_passes (resource_state w) (prune_start w) done = true ->
  prune w
  = match run_step step
            (with_resource_calls
               (with_CONFIG (touched w)
                            (fold_left (pruned_step (resource_state w)) done (prune_start w)))
               (resource_calls w ++ plan_calls (resource_state w) (prune_start w) done))
    with
    | (Ok _, w') => for_each rest run_step w'
    | (Raise e, w') => (Raise e, w')
    end.
Proof.
  intros H Hp. destruct (prune_plan_split done step rest H) as (Hn & _).
  rewrite prune_eq, H, for_each_app.
  rewrite <- (resource_state_touched w) in Hp.
  rewrite (run_plan_pass done (touched w) _ _ Hn Hp).
  rewrite (resource_state_touched w). cbn [for_each]. unfold bind.
  now destruct (run_step step _) as [[[]|e] w'].
Qed.

Lemma run_step_missing step w P calls :
  section_of P (fst step) = None ->
  run_step step (with_resource_calls (with_CONFIG w P) calls)
  = (Raise (NoSectionError (fst step)), with_resource_calls (with_CONFIG w P) calls).
Proof.
  intros E. unfold section_of in E.
  destruct step as [section [[cls keyword]|]]; unfold run_step, prune_loop; cbn [fst snd] in *;
    unfold bind at 1; rewrite CONFIG_options_eq; unfold configparser.options; now rewrite E.
Qed.

Lemma first_failure (A : Type) (f : A -> bool) (l : list A) :
  forallb f l = false ->
  exists pre x post, l = (pre ++ x :: post)%list /\ forallb f pre = true /\ f x = false.
Proof.
  induction l as [|x r IH]; [discriminate|]. cbn [forallb].
  destruct (f x) eqn:E.
  - intros H. destruct (IH H) as (pre & y & post & -> & Hp & Hy).
    exists (x :: pre), y, post. cbn [forallb]. now rewrite E.
  - intros _. now exists [], x, r.
Qed.

(** A step that does not pass raises. *)
Lemma run_step_raises step w P calls :
  named_section (fst step) = true ->
  step_passes (resource_state w) P step = false ->
  exists e w',
    run_step step (with_resource_calls (with_CONFIG w P) calls) = (Raise e, w').
Proof.
  intros Hn Hp. unfold step_passes in Hp.
  destruct (configparser.has_section P (fst step)) eqn:Hs.
  - destruct (has_section_of _ _ Hs) as [d E].
    destruct step as [section [[cls keyword]|]]; cbn [fst snd andb] in *; [|discriminate].
    destruct (first_failure _ _ _ Hp) as (pre & name & post & El & Hpre & Hname).
    unfold step_names in El. cbn [fst] in El.
    rewrite (options_of_section _ _ _ E) in El.
    unfold passes in Hname.
    destruct (failure (resource_state w) cls keyword name) as [e|] eqn:Ef; [|discriminate].
    eexists e, _. unfold run_step, prune_loop. cbn [fst snd]. unfold bind at 1.
    rewrite CONFIG_options_eq, (options_of_section _ _ _ E), El.
    now apply prune_names_fail with (d := d).
  - eexists _, _. apply run_step_missing.
    unfold configparser.has_section, dict_has in Hs. unfold section_of.
    now destruct (dict_get (fst step) (configparser._sections P)).
Qed.

(** A plan with a step on a section that is not there raises. *)
Lemma run_plan_missing section plan : forall w P calls,
  forallb (fun s => named_section (fst s)) plan = true ->
  In section (map fst plan) ->
  section_of P section = None ->
  exists e w',
    for_each plan run_step (with_resource_calls (with_CONFIG w P) calls) = (Raise e, w').
Proof.
  induction plan as [|step rest IH]; intros w P calls Hn Hin E; [destruct Hin|].
  cbn [forallb] in Hn. apply andb_true_iff in Hn as [Hn1 Hn2].
  cbn [for_each]. unfold bind.
  destruct (step_passes (resource_state w) P step) eqn:Hp.
  - rewrite (run_step_pass step w P calls Hn1 Hp).
    cbn [map] in Hin. destruct Hin as [<-|Hin].
    + unfold step_passes in Hp. apply andb_true_iff in Hp as [Hs _].
      destruct (has_section_of _ _ Hs) as [d Ed]. congruence.
    + apply IH; [assumption | assumption | now apply section_of_pruned_step_None].
  - destruct (run_step_raises step w P calls Hn1 Hp) as (e & w' & ->). eauto.
Qed.

Lemma section_of_prune_start w s :
  section_of (prune_start w) s = section_of (fresh_read w) s.
Proof.
  unfold prune_start, section_of. now rewrite loaded_after_verify, loaded_sections.
Qed.

(** C10: [prune] needs each of the sections it walks ([roles], [vpc],
    [security-groups], [docker-repos], [job-definitions],
    [compute-environments], [job-queues], [jobs]) in the config file: when
    one is missing, [prune] raises; when the loops before it pass, it
    raises [NoSectionError] for that section, and the only existence checks
    made are those of the sections before it. *)
Theorem prune_requires_sections w done section check rest :
  prune_plan = (done ++ (section, check) :: rest)%list ->
  section_of (fresh_read w) section = None ->
  (exists e, fst (prune w) = Raise e)
  /\ (plan_passes (resource_state w) (prune_start w) done = true ->
      fst (prune w) = Raise (NoSectionError section)
      /\ resource_calls (snd (prune w))
         = (resource_calls w ++ plan_calls (resource_state w) (prune_start w) done)%list).
Proof.
  intros H E. rewrite <- section_of_prune_start in E. split.
  - rewrite prune_eq.
    destruct (run_plan_missing section prune_plan (touched w) (prune_start w)
                (resource_calls w) eq_refl) as (e & w' & Heq).
    + rewrite H, map_app. apply in_or_app. right. now left.
    + exact E.
    + exists e. exact (f_equal fst Heq).
  - intros Hp. rewrite (prune_at w done (section, check) rest H Hp).
    rewrite run_step_missing; [split; reflexivity|].
    cbn [fst]. now apply section_of_fold_None.
Qed.

(** The theorem on a machine without a config file: [get_config_file]
    creates an empty one, and [prune] stops at [roles], the first section
    it walks, with no existence check made. *)
Lemma prune_requires_sections_witness :
  prune_plan = ([] ++ ("roles", Some (IamRole, "name")) :: tl prune_plan)%list
  /\ section_of (fresh_read world_without_file) "roles" = None
  /\ fst (prune world_without_file) = Raise (NoSectionError "roles")
  /\ resource_calls (snd (prune world_without_file)) = [].
Proof.
  split; [reflexivity|]. split; [reflexivity|].
  destruct (prune_requires_sections world_without_file [] "roles"
              (Some (IamRole, "name")) (tl prune_plan) eq_refl eq_refl) as [_ H].
  exact (H eq_refl).
Defined.

(** C8: in [prune], an existence check that answers "does not exist" is
    dealt with on the spot (the entry leaves [CONFIG] and the loop goes on);
    any other exception of a check leaves [prune] as it is.  At that moment
    the sections walked before hold the entries that were not found gone,
    the section of the failing check has lost the stale entries met before
    the failure, and the sections after it are as they were read. *)
Theorem prune_failure_propagates w done section cls keyword rest pre name post e :
  prune_plan = (done ++ (section, Some (cls, keyword)) :: rest)%list ->
  plan_passes (resource_state w) (prune_start w) done = true ->
  configparser.options (prune_start w) section = Ok (pre ++ name :: post)%list ->
  forallb (passes (resource_state w) cls keyword) pre = true ->
  resource_state w (mk_call cls keyword name) = Some e ->
  e <> ResourceDoesNotExistException ->
  let r := prune w in
  fst r = Raise e
  /\ CONFIG (snd r)
     = pruned (resource_state w)
              (fold_left (pruned_step (resource_state w)) done (prune_start w))
              section cls keyword pre
  /\ (forall s c k d,
        In (s, Some (c, k)) done ->
        section_of (prune_start w) s = Some d ->
        section_of (CONFIG (snd r)) s
        = Some (pruned_dict (gone (resource_state w) c k)
                            (step_names (prune_start w) (s, Some (c, k))) d))
  /\ (forall d,
        section_of (prune_start w) section = Some d ->
        section_of (CONFIG (snd r)) section
        = Some (pruned_dict (gone (resource_state w) cls keyword) pre d))
  /\ (forall step,
        In step rest ->
        section_of (CONFIG (snd r)) (fst step) = section_of (prune_start w) (fst step))
  /\ files (snd r) = files (touched w)
  /\ resource_calls (snd r)
     = (resource_calls w ++ plan_calls (resource_state w) (prune_start w) done
          ++ map (mk_call cls keyword) (pre ++ [name]))%list.
Proof.
  intros H Hp Ho Hpre He Hne r.
  destruct (prune_plan_split _ _ _ H) as (_ & Hn & Hfresh & Hrest & Hnd).
  cbn [fst] in Hn, Hfresh, Hrest.
  set (st := resource_state w) in *.
  set (P' := fold_left (pruned_step st) done (prune_start w)).
  assert (Hd : exists d, section_of (prune_start w) section = Some d).
  { unfold configparser.options in Ho. unfold section_of.
    destruct (dict_get section (configparser._sections (prune_start w))) as [d|];
      [eauto | discriminate]. }
  destruct Hd as [d Ed].
  assert (Ed' : section_of P' section = Some d).
  { unfold P'. now rewrite section_of_fold_other. }
  assert (Ho' : configparser.options P' section = Ok (pre ++ name :: post)%list).
  { unfold P'. now rewrite options_fold_other. }
  assert (Hf : failure st cls keyword name = Some e).
  { unfold failure. rewrite He. destruct e; congruence. }
  assert (Er : r = (Raise e,
                    with_resource_calls
                      (with_CONFIG (touched w) (pruned st P' section cls keyword pre))
                      ((resource_calls w ++ plan_calls st (prune_start w) done)
                         ++ map (mk_call cls keyword) (pre ++ [name])))).
  { unfold r. rewrite (prune_at w done _ rest H Hp).
    unfold run_step, prune_loop. cbn [fst snd]. unfold bind at 1.
    rewrite CONFIG_options_eq. fold st. fold P'. rewrite Ho'.
    erewrite prune_names_fail;
      [ | exact Hn | exact Ed' | rewrite resource_state_touched; exact Hpre
        | rewrite resource_state_touched; exact Hf ].
    now rewrite resource_state_touched. }
  rewrite Er. cbn [fst snd CONFIG files resource_calls with_CONFIG with_resource_calls].
  split; [reflexivity|]. split; [reflexivity|]. split; [|split; [|split; [|split]]].
  - intros s c k d0 Hin Es.
    assert (N : s <> section).
    { intros ->. apply Hfresh. apply in_map_iff. now exists (section, Some (c, k)). }
    rewrite section_of_pruned_other by assumption.
    now apply section_of_fold_step.
  - intros d0 Ed0. assert (d0 = d) by congruence. subst d0.
    unfold pruned. rewrite Ed'. unfold section_of. cbn [configparser._sections].
    apply dict_get_set_same.
  - intros step Hin. destruct (Hrest step Hin) as [N1 N2].
    rewrite section_of_pruned_other by assumption.
    now apply section_of_fold_other.
  - reflexivity.
  - now rewrite <- app_assoc.
Qed.

(** The theorem at a config file whose stale role is pruned before the
    lookup of the VPC times out: the timeout leaves [prune], [roles] has
    lost the stale role, and [job-queues], further down, still has its
    stale entry. *)
Lemma prune_failure_propagates_witness :
  fst (prune world_failing_vpc) = Raise (OtherException "EndpointTimeout")
  /\ section_of (CONFIG (snd (prune world_failing_vpc))) "roles"
     = Some [("knot-role", "arn:aws:iam::1:role/knot-role")]
  /\ section_of (CONFIG (snd (prune world_failing_vpc))) "job-queues"
     = Some [("stale-role", "queue")]
  /\ resource_calls (snd (prune world_failing_vpc))
     = [mk_call IamRole "name" "knot-role"; mk_call IamRole "name" "stale-role";
        mk_call Vpc "vpc_id" "vpc-0a1b"].
Proof.
  destruct (prune_failure_propagates world_failing_vpc
              [("roles", Some (IamRole, "name"))] "vpc" Vpc "vpc_id"
              (tl (tl prune_plan)) [] "vpc-0a1b" []
              (OtherException "EndpointTimeout")
              eq_refl eq_refl eq_refl eq_refl eq_refl)
    as (H1 & _ & H3 & _ & H5 & _ & H7).
  { discriminate. }
  split; [exact H1|]. split; [|split].
  - exact (H3 "roles" IamRole "name" _ (or_introl eq_refl) eq_refl).
  - exact (H5 ("job-queues", Some (IamRole, "name"))
              (or_intror (or_intror (or_intror (or_intror (or_introl eq_refl)))))).
  - exact H7.
Defined.

(** * Further properties of the operations *)

(** ** [get_config_file] *)

(** X1: when [get_config_file] returns, it returns the path that
    CLOUDKNOT_CONFIG_FILE names, made absolute, and [~/.aws/cloudknot]
    without that variable; the file then exists; a file that was there, the
    config file included, keeps its content, and a new config file is
    empty; with the config file there already nothing at all changes; a
    second call returns the same path and changes nothing. *)
Theorem get_config_file_creates_once w p :
  fst (get_config_file w) = Ok p ->
  let r := get_config_file w in
  p = config_path w
  /\ (forall env_file,
        dict_get "CLOUDKNOT_CONFIG_FILE" (environ w) = Some env_file ->
        p = abspath w env_file)
  /\ (dict_get "CLOUDKNOT_CONFIG_FILE" (environ w) = None ->
      p = os_path_join (user_home w) [".aws"; "cloudknot"])
  /\ dict_has p (files (snd r)) = true
  /\ (forall q f, dict_get q (files w) = Some f -> dict_get q (files (snd r)) = Some f)
  /\ (forall q, q <> p -> dict_get q (files (snd r)) = dict_get q (files w))
  /\ (dict_has p (files w) = false -> dict_get p (files (snd r)) = Some [])
  /\ (dict_has p (files w) = true -> snd r = w)
  /\ CONFIG (snd r) = CONFIG w
  /\ get_config_file (snd r) = r.
Proof.
  intros Hp r. unfold r. rewrite get_config_file_eq in *. cbn [fst snd] in *.
  injection Hp as <-.
  split; [reflexivity|].
  split; [intros e E; unfold config_path; now rewrite E|].
  split; [intros E; unfold config_path; now rewrite E|].
  split; [apply touched_has_file|].
  split; [|split; [|split; [|split; [|split]]]].
  - intros q f E. unfold touched.
    destruct (dict_has (config_path w) (files w)) eqn:Eh; [assumption|].
    cbn [files with_files].
    destruct (String.eqb_spec q (config_path w)) as [->|N].
    + unfold dict_has in Eh. now rewrite E in Eh.
    + now rewrite dict_get_set_other.
  - intros q N. unfold touched.
    destruct (dict_has (config_path w) (files w)); [reflexivity|].
    cbn [files with_files]. now apply dict_get_set_other.
  - intros Eh. unfold touched. rewrite Eh. cbn [files with_files].
    apply dict_get_set_same.
  - intros Eh. unfold touched. now rewrite Eh.
  - apply CONFIG_touched.
  - rewrite get_config_file_eq. now rewrite config_path_touched, touched_idem.
Qed.

(** The theorem where there is no config file yet, and where there is
    one. *)
Lemma get_config_file_creates_once_witness :
  (fst (get_config_file world_without_file) = Ok home_config
   /\ dict_get home_config (files (snd (get_config_file world_without_file))) = Some [])
  /\ (fst (get_config_file world_with_roles) = Ok home_config
      /\ snd (get_config_file world_with_roles) = world_with_roles).
Proof.
  destruct (get_config_file_creates_once world_without_file home_config eq_refl)
    as (_ & _ & _ & _ & _ & _ & A & _).
  destruct (get_config_file_creates_once world_with_roles home_config eq_refl)
    as (_ & _ & _ & _ & _ & _ & _ & B & _).
  split; (split; [reflexivity|]).
  - exact (A eq_refl).
  - exact (B eq_refl).
Defined.

(** ** [add_resource] and [remove_resource] together *)

Lemma dict_del_set_same (V : Type) k (v : V) d :
  dict_del k (dict_set k v d) = dict_del k d.
Proof.
  unfold dict_del. induction d as [|[k0 v0] r IH]; simpl.
  - now rewrite String.eqb_refl.
  - destruct (String.eqb_spec k0 k) as [->|N]; simpl.
    + now rewrite String.eqb_refl.
    + destruct (String.eqb_spec k0 k); [contradiction | now rewrite IH].
Qed.

Lemma dict_del_del (V : Type) k (d : dict V) : dict_del k (dict_del k d) = dict_del k d.
Proof.
  apply dict_del_absent. unfold dict_has. now rewrite dict_get_del_same.
Qed.

Lemma valid_triple_named section opt value :
  valid_triple section opt value = true -> named_section section = true.
Proof.
  intros H. now destruct (valid_triple_inv _ _ _ H).
Qed.

(** The sections a fresh read finds after [add_resource]. *)
Lemma add_resource_sections w section opt value :
  valid_triple section opt value = true ->
  configparser._sections (fresh_read (snd (add_resource section opt value w)))
  = dict_set section
      (dict_set (configparser.optionxform opt) value
         match section_of (fresh_read w) section with Some d => d | None => [] end)
      (configparser._sections (fresh_read w)).
Proof.
  intros H. rewrite (add_resource_eq _ _ _ _ H). cbn [snd].
  rewrite fresh_read_saved
    by (apply upserted_normal; [now apply valid_triple_named with opt value
                               | apply loaded_normal]).
  unfold upserted. cbn [configparser._sections].
  now rewrite section_of_loaded, loaded_sections.
Qed.

(** The sections a fresh read finds after [remove_resource] on a section
    that is there. *)
Lemma remove_resource_sections w section opt d :
  named_section section = true ->
  section_of (fresh_read w) section = Some d ->
  remove_resource section opt w = (Ok tt, saved w (without (loaded w) section opt))
  /\ configparser._sections (fresh_read (snd (remove_resource section opt w)))
     = dict_set section (dict_del (configparser.optionxform opt) d)
                (configparser._sections (fresh_read w)).
Proof.
  intros Hn E. rewrite <- section_of_loaded in E.
  rewrite (remove_resource_eq _ _ opt _ Hn E). split; [reflexivity|]. cbn [snd].
  rewrite fresh_read_saved by (apply without_normal, loaded_normal).
  unfold without. rewrite E. cbn [configparser._sections].
  now rewrite loaded_sections.
Qed.

(** X2: what [add_resource] adds, [remove_resource] takes away, under any
    spelling of the option that differs in the case of ASCII letters only:
    the call returns, a fresh read has the section without the option, and
    a section that did not have the option before reads back as it was
    (empty when [add_resource] created it). *)
Theorem add_then_remove_resource w section opt opt' value :
  valid_triple section opt value = true ->
  lower opt' = lower opt ->
  let before := match section_of (fresh_read w) section with
                | Some d => d
                | None => []
                end in
  let r := remove_resource section opt' (snd (add_resource section opt value w)) in
  fst r = Ok tt
  /\ section_of (fresh_read (snd r)) section = Some (dict_del (lower opt) before)
  /\ stored_value (fresh_read (snd r)) section (lower opt) = None
  /\ (dict_has (lower opt) before = false ->
      section_of (fresh_read (snd r)) section = Some before).
Proof.
  intros H Ho before r.
  pose proof (valid_triple_named _ _ _ H) as Hn.
  pose proof (add_resource_sections w section opt value H) as Ea.
  fold before in Ea.
  set (w1 := snd (add_resource section opt value w)) in *.
  assert (E1 : section_of (fresh_read w1) section
               = Some (dict_set (configparser.optionxform opt) value before)).
  { unfold section_of. rewrite Ea. apply dict_get_set_same. }
  destruct (remove_resource_sections w1 section opt' _ Hn E1) as [Er Es].
  assert (E2 : section_of (fresh_read (snd r)) section = Some (dict_del (lower opt) before)).
  { unfold r, section_of. rewrite Es. rewrite dict_get_set_same.
    unfold configparser.optionxform. rewrite Ho. now rewrite dict_del_set_same. }
  split; [unfold r; now rewrite Er|]. split; [exact E2|]. split.
  - unfold stored_value. rewrite E2. apply dict_get_del_same.
  - intros Hh. rewrite E2. now rewrite dict_del_absent.
Qed.

(** The theorem at a role added under one spelling and removed under
    another. *)
Lemma add_then_remove_resource_witness :
  valid_triple "roles" "Knot-Role" "arn:aws:iam::1:role/knot-role" = true
  /\ lower "KNOT-ROLE" = lower "Knot-Role"
  /\ section_of
       (fresh_read
          (snd (remove_resource "roles" "KNOT-ROLE"
                  (snd (add_resource "roles" "Knot-Role" "arn:aws:iam::1:role/knot-role"
                                     world_with_roles)))))
       "roles"
     = Some [("batch-role", "arn:aws:iam::1:role/batch-role")].
Proof.
  split; [reflexivity|]. split; [reflexivity|].
  destruct (add_then_remove_resource world_with_roles "roles" "Knot-Role" "KNOT-ROLE"
              "arn:aws:iam::1:role/knot-role" eq_refl eq_refl) as (_ & _ & _ & H).
  exact (H eq_refl).
Defined.

Lemma stored_value_set P section key d v k s :
  configparser._sections P = dict_set section (dict_set key v d) s ->
  stored_value P section k = if String.eqb key k then Some v else dict_get k d.
Proof.
  intros E. unfold stored_value, section_of. rewrite E, dict_get_set_same.
  destruct (String.eqb_spec key k) as [->|N].
  - apply dict_get_set_same.
  - apply dict_get_set_other. congruence.
Qed.

(** X3: [add_resource] overwrites: adding a second value under the same
    option, spelled with other ASCII letter case or not, leaves the section
    with the same option names in the same order, one entry for the option,
    holding the second value; the list of sections is the same. *)
Theorem add_resource_overwrites w section opt opt' value value' :
  valid_triple section opt value = true ->
  valid_triple section opt' value' = true ->
  lower opt' = lower opt ->
  let w1 := snd (add_resource section opt value w) in
  let r := add_resource section opt' value' w1 in
  fst r = Ok tt
  /\ stored_value (fresh_read (snd r)) section (lower opt) = Some value'
  /\ (exists d1 d2,
        section_of (fresh_read w1) section = Some d1
        /\ section_of (fresh_read (snd r)) section = Some d2
        /\ dict_keys d2 = dict_keys d1)
  /\ configparser.sections (fresh_read (snd r)) = configparser.sections (fresh_read w1).
Proof.
  intros H H' Ho w1 r.
  pose proof (add_resource_sections w section opt value H) as E1. fold w1 in E1.
  pose proof (add_resource_sections w1 section opt' value' H') as E2. fold r in E2.
  set (d0 := match section_of (fresh_read w) section with Some d => d | None => [] end) in *.
  set (d1 := dict_set (configparser.optionxform opt) value d0) in *.
  assert (Es1 : section_of (fresh_read w1) section = Some d1).
  { unfold section_of. rewrite E1. apply dict_get_set_same. }
  rewrite Es1 in E2. unfold configparser.optionxform in E2. rewrite Ho in E2.
  assert (Es2 : section_of (fresh_read (snd r)) section
                = Some (dict_set (lower opt) value' d1)).
  { unfold section_of. rewrite E2. apply dict_get_set_same. }
  split; [unfold r; now rewrite (add_resource_eq _ _ _ _ H')|].
  split; [|split].
  - unfold stored_value. rewrite Es2. apply dict_get_set_same.
  - exists d1, (dict_set (lower opt) value' d1). split; [exact Es1|]. split; [exact Es2|].
    rewrite dict_keys_set. unfold d1, configparser.optionxform, dict_has.
    now rewrite dict_get_set_same.
  - unfold configparser.sections. rewrite E2, dict_keys_set.
    unfold dict_has. unfold section_of in Es1. now rewrite Es1.
Qed.

(** The theorem at a job whose status is set twice. *)
Lemma add_resource_overwrites_witness :
  valid_triple "jobs" "Job-7" "SUBMITTED" = true
  /\ valid_triple "jobs" "job-7" "RUNNING" = true
  /\ lower "job-7" = lower "Job-7"
  /\ stored_value
       (fresh_read
          (snd (add_resource "jobs" "job-7" "RUNNING"
                  (snd (add_resource "jobs" "Job-7" "SUBMITTED" world_with_roles)))))
       "jobs" "job-7"
     = Some "RUNNING".
Proof.
  split; [reflexivity|]. split; [reflexivity|]. split; [reflexivity|].
  destruct (add_resource_overwrites world_with_roles "jobs" "Job-7" "job-7"
              "SUBMITTED" "RUNNING" eq_refl eq_refl eq_refl) as (_ & E & _).
  exact E.
Defined.

(** X4: [add_resource] touches one entry: every other option, in the
    section or elsewhere, reads back with the value it had, and the list of
    sections is the one before, with the new section at the end when the
    file did not have it.  The options of the DEFAULT block of the file
    are the ones before as well, when none is left in [CONFIG] from an
    earlier read ([clear] keeps those, and [write] puts them in the
    file). *)
Theorem add_resource_leaves_rest w section opt value :
  valid_triple section opt value = true ->
  let after := fresh_read (snd (add_resource section opt value w)) in
  (forall s k,
     s <> section \/ k <> lower opt ->
     stored_value after s k = stored_value (fresh_read w) s k)
  /\ configparser.sections after
     = (if configparser.has_section (fresh_read w) section
        then configparser.sections (fresh_read w)
        else (configparser.sections (fresh_read w) ++ [section])%list)
  /\ (no_defaults_left w = true ->
      configparser._defaults after = configparser._defaults (fresh_read w)).
Proof.
  intros H after.
  pose proof (add_resource_sections w section opt value H) as E. fold after in E.
  split; [|split].
  - intros s k Hsk. destruct (String.eqb_spec s section) as [->|Ns].
    + destruct Hsk as [N|Nk]; [contradiction|].
      rewrite (stored_value_set _ _ _ _ _ k _ E).
      unfold configparser.optionxform.
      destruct (String.eqb_spec (lower opt) k) as [<-|_]; [contradiction|].
      unfold stored_value. now destruct (section_of (fresh_read w) section).
    + unfold stored_value, section_of. rewrite E. now rewrite dict_get_set_other.
  - unfold configparser.sections, configparser.has_section. rewrite E.
    apply dict_keys_set.
  - intros Hd. unfold after. rewrite (add_resource_eq _ _ _ _ H). cbn [snd].
    unfold fresh_read at 1. rewrite config_content_saved.
    rewrite read_write_defaults.
    + unfold upserted. cbn [configparser._defaults]. now rewrite (loaded_fresh w Hd).
    + unfold upserted. cbn [configparser._defaults]. rewrite (loaded_fresh w Hd).
      apply read_defaults_normal, ParserFacts.dict_normal_nil.
    + apply upserted_normal; [now apply valid_triple_named with opt value
                             | apply loaded_normal].
Qed.

(** The theorem at a job added to a file with a role and a VPC. *)
Lemma add_resource_leaves_rest_witness :
  valid_triple "jobs" "job-7" "RUNNING" = true
  /\ stored_value (fresh_read (snd (add_resource "jobs" "job-7" "RUNNING" world_with_roles)))
                  "vpc" "vpc-0a1b" = Some "default"
  /\ configparser.sections
       (fresh_read (snd (add_resource "jobs" "job-7" "RUNNING" world_with_roles)))
     = ["roles"; "vpc"; "jobs"].
Proof.
  split; [reflexivity|].
  destruct (add_resource_leaves_rest world_with_roles "jobs" "job-7" "RUNNING" eq_refl)
    as (H1 & H2 & _).
  split.
  - rewrite (H1 "vpc" "vpc-0a1b"); [reflexivity | left; discriminate].
  - rewrite H2. reflexivity.
Defined.

Lemma before_set_fails v :
  is_ok (configparser.before_set v) = false ->
  v <> "" /\ configparser.before_set v = Raise (ValueError "invalid interpolation syntax").
Proof.
  intros H. split.
  - intros ->. discriminate.
  - unfold configparser.before_set in *. now destruct (contains_char _ _).
Qed.

Lemma loaded_no_DEFAULT w :
  str_in configparser.DEFAULTSECT (configparser.sections (loaded w)) = false.
Proof.
  apply str_in_false. apply (loaded_normal w).
Qed.

(** X5: what [add_resource] refuses.  The section name DEFAULT raises
    [ValueError], as does, for any other named section, a value whose
    percent signs break the interpolation syntax; in both cases the config
    file is not written. *)
Theorem add_resource_refuses w section opt value :
  (section = configparser.DEFAULTSECT ->
   fst (add_resource section opt value w) = Raise (ValueError "Invalid section name")
   /\ files (snd (add_resource section opt value w)) = files (touched w))
  /\ (named_section section = true ->
      is_ok (configparser.before_set value) = false ->
      fst (add_resource section opt value w)
      = Raise (ValueError "invalid interpolation syntax")
      /\ files (snd (add_resource section opt value w)) = files (touched w)).
Proof.
  split.
  - intros ->. unfold add_resource. rewrite load_eq. run_py.
    rewrite loaded_no_DEFAULT. run_py. split; reflexivity.
  - intros Hn Hv. destruct (before_set_fails _ Hv) as [Hne Hb].
    apply String.eqb_neq in Hne.
    assert (Hset : forall P, configparser.set P section opt value
                             = Raise (ValueError "invalid interpolation syntax")).
    { intros P. unfold configparser.set. now rewrite Hne, Hb. }
    unfold add_resource. rewrite load_eq. run_py.
    unfold configparser.sections. rewrite dict_has_str_in.
    destruct (dict_has section (configparser._sections (loaded w))) eqn:Eh; run_py.
    + rewrite Hset. split; reflexivity.
    + unfold configparser.add_section.
      unfold named_section in Hn. apply andb_true_iff in Hn as [_ Hn].
      apply negb_true_iff in Hn. rewrite Hn, Eh. run_py.
      rewrite Hset. split; reflexivity.
Qed.

(** The theorem at the section DEFAULT and at a value with a stray percent
    sign. *)
Lemma add_resource_refuses_witness :
  fst (add_resource "DEFAULT" "region" "us-east-1" world_with_roles)
  = Raise (ValueError "Invalid section name")
  /\ (named_section "jobs" = true
      /\ is_ok (configparser.before_set "50% done") = false
      /\ fst (add_resource "jobs" "job-7" "50% done" world_with_roles)
         = Raise (ValueError "invalid interpolation syntax")
      /\ files (snd (add_resource "jobs" "job-7" "50% done" world_with_roles))
         = files world_with_roles).
Proof.
  destruct (add_resource_refuses world_with_roles "DEFAULT" "region" "us-east-1")
    as [H1 _].
  destruct (add_resource_refuses world_with_roles "jobs" "job-7" "50% done")
    as [_ H2].
  split; [exact (proj1 (H1 eq_refl))|].
  split; [reflexivity|]. split; [reflexivity|].
  exact (H2 eq_refl eq_refl).
Defined.

(** X6: [remove_resource] touches one entry: on a section that the file
    has, every other option, in the section or elsewhere, reads back with
    the value it had, and the sections are the same, in the same order; the
    section stays, even when its last option goes. *)
Theorem remove_resource_leaves_rest w section opt d :
  named_section section = true ->
  section_of (fresh_read w) section = Some d ->
  let after := fresh_read (snd (remove_resource section opt w)) in
  (forall s k,
     s <> section \/ k <> lower opt ->
     stored_value after s k = stored_value (fresh_read w) s k)
  /\ configparser.sections after = configparser.sections (fresh_read w)
  /\ configparser.has_section after section = true.
Proof.
  intros Hn E after.
  destruct (remove_resource_sections w section opt d Hn E) as [_ Es]. fold after in Es.
  split; [|split].
  - intros s k Hsk. unfold stored_value, section_of. rewrite Es.
    destruct (String.eqb_spec s section) as [->|Ns].
    + destruct Hsk as [N|Nk]; [contradiction|].
      rewrite dict_get_set_same. unfold section_of in E. rewrite E.
      now apply dict_get_del_other.
    + now rewrite dict_get_set_other.
  - unfold configparser.sections. rewrite Es, dict_keys_set.
    unfold dict_has. unfold section_of in E. now rewrite E.
  - unfold configparser.has_section, dict_has. rewrite Es. now rewrite dict_get_set_same.
Qed.

(** The theorem at the removal of the only role: [roles] stays, empty, and
    the VPC is untouched. *)
Lemma remove_resource_leaves_rest_witness :
  named_section "roles" = true
  /\ stored_value (fresh_read (snd (remove_resource "roles" "batch-role" world_with_roles)))
                  "vpc" "vpc-0a1b" = Some "default"
  /\ configparser.sections
       (fresh_read (snd (remove_resource "roles" "batch-role" world_with_roles)))
     = ["roles"; "vpc"].
Proof.
  split; [reflexivity|].
  destruct (remove_resource_leaves_rest world_with_roles "roles" "batch-role" _
              eq_refl eq_refl) as (H1 & H2 & _).
  split.
  - rewrite (H1 "vpc" "vpc-0a1b"); [reflexivity | left; discriminate].
  - rewrite H2. reflexivity.
Defined.

(** X7: [remove_resource] is idempotent on a section that the file has:
    the second removal of the same option returns as well and leaves the
    sections of the file as the first removal left them. *)
Theorem remove_resource_twice w section opt d :
  named_section section = true ->
  section_of (fresh_read w) section = Some d ->
  let once := remove_resource section opt w in
  let twice := remove_resource section opt (snd once) in
  fst once = Ok tt
  /\ fst twice = Ok tt
  /\ configparser._sections (fresh_read (snd twice))
     = configparser._sections (fresh_read (snd once)).
Proof.
  intros Hn E once twice.
  destruct (remove_resource_sections w section opt d Hn E) as [Er Es].
  fold once in Er, Es.
  assert (E1 : section_of (fresh_read (snd once)) section
               = Some (dict_del (configparser.optionxform opt) d)).
  { unfold section_of. rewrite Es. apply dict_get_set_same. }
  destruct (remove_resource_sections (snd once) section opt _ Hn E1) as [Er2 Es2].
  fold twice in Er2, Es2.
  split; [now rewrite Er|]. split; [now rewrite Er2|].
  rewrite Es2, Es. now rewrite dict_del_del, dict_set_set.
Qed.

(** The theorem at the role of the example, removed twice. *)
Lemma remove_resource_twice_witness :
  named_section "roles" = true
  /\ section_of (fresh_read world_with_roles) "roles"
     = Some [("batch-role", "arn:aws:iam::1:role/batch-role")]
  /\ fst (remove_resource "roles" "batch-role"
            (snd (remove_resource "roles" "batch-role" world_with_roles))) = Ok tt.
Proof.
  split; [reflexivity|]. split; [reflexivity|].
  exact (proj1 (proj2 (remove_resource_twice world_with_roles "roles" "batch-role" _
                         eq_refl eq_refl))).
Defined.

(** ** [set_region] and [get_region] together *)

(** A region that the loaded file has under [aws] is what [get_region]
    returns, and the files stay as they are. *)
Lemma get_region_finds w region d :
  section_of (loaded w) "aws" = Some d ->
  dict_get "region" d = Some region ->
  plain region = true ->
  fst (get_region w) = Ok region /\ files (snd (get_region w)) = files w.
Proof.
  intros E Er Hp.
  assert (Hs : stored_region w = true).
  { unfold stored_region. apply andb_true_iff. split.
    - unfold configparser.has_section, dict_has. unfold section_of in E. now rewrite E.
    - now apply has_option_in_section with d region. }
  rewrite (get_region_stored w Hs). cbn [fst snd files with_CONFIG]. split.
  - now apply get_plain_section with d.
  - now rewrite (touched_existing w (stored_region_file w Hs)).
Qed.

Lemma clients_touched w : clients (touched w) = clients w.
Proof.
  unfold touched. now destruct (dict_has (config_path w) (files w)).
Qed.

Lemma set_region_eq w region region_names :
  dict_has "ec2" (clients w) = true ->
  region_catalog w = Ok region_names ->
  str_in region region_names = true ->
  is_ok (configparser.before_set region) = true ->
  set_region region w
  = (Ok tt,
     with_clients (saved w (upserted (loaded w) "aws" "region" region))
       (dict_set "ecr" region
          (dict_set "batch" region
             (dict_set "ec2" region (dict_set "iam" region (clients w)))))).
Proof.
  unfold dict_has. intros Hc Hn Hl Hv.
  unfold set_region, describe_regions.
  unfold bind at 1. destruct (dict_get "ec2" (clients w)); [|discriminate].
  rewrite Hn. unfold bind at 1. rewrite Hl. cbn [negb when]. unfold ret at 1.
  rewrite load_eq. run_py.
  unfold configparser.has_section, upserted, section_of, dict_has.
  destruct (dict_get "aws" (configparser._sections (loaded w))) as [d|] eqn:Ed; run_py.
  - rewrite (set_named _ "aws" "region" region d eq_refl Hv Ed). run_py.
    rewrite clients_touched. reflexivity.
  - unfold configparser.add_section, dict_has. rewrite Ed. run_py.
    erewrite set_named;
      [ | reflexivity | assumption | unfold section_of; simpl; apply dict_get_set_same].
    run_py. rewrite dict_set_set, clients_touched. reflexivity.
Qed.

(** X8: [set_region] with a region that [describe_regions] lists returns,
    leaves the region in the config file under [aws], binds the four
    clients to it, and from then on [get_region] returns it, whatever the
    environment and the ambient AWS config file say. *)
Theorem set_region_then_get_region w region region_names :
  dict_has "ec2" (clients w) = true ->
  region_catalog w = Ok region_names ->
  str_in region region_names = true ->
  plain region = true ->
  let r := set_region region w in
  fst r = Ok tt
  /\ stored_value (fresh_read (snd r)) "aws" "region" = Some region
  /\ fst (get_region (snd r)) = Ok region
  /\ (forall service,
        In service ["iam"; "ec2"; "batch"; "ecr"] ->
        dict_get service (clients (snd r)) = Some region).
Proof.
  intros Hc Hn Hl Hp r. unfold r.
  rewrite (set_region_eq w region region_names Hc Hn Hl (before_set_plain _ Hp)).
  cbn [fst snd].
  set (P := upserted (loaded w) "aws" "region" region).
  set (cs := dict_set "ecr" region _).
  assert (HP : sections_normal (configparser._sections P)).
  { apply upserted_normal; [reflexivity | apply loaded_normal]. }
  assert (Ef : section_of (fresh_read (saved w P)) "aws"
               = Some (dict_set "region" region
                         match section_of (loaded w) "aws" with
                         | Some d => d | None => [] end)).
  { unfold section_of at 1. rewrite (fresh_read_saved w P HP).
    apply (section_of_upserted (loaded w) "aws" "region" region). }
  split; [reflexivity|]. split; [|split].
  - change (fresh_read (with_clients (saved w P) cs)) with (fresh_read (saved w P)).
    unfold stored_value. rewrite Ef. apply (dict_get_set_same _ "region").
  - apply (get_region_finds (with_clients (saved w P) cs) region
             (dict_set "region" region
                match section_of (loaded w) "aws" with Some d => d | None => [] end)).
    + change (loaded (with_clients (saved w P) cs)) with (loaded (saved w P)).
      now rewrite section_of_loaded.
    + apply (dict_get_set_same _ "region").
    + exact Hp.
  - intros service Hin. cbn [clients with_clients]. unfold cs.
    cbn [In] in Hin.
    destruct Hin as [<-|[<-|[<-|[<-|[]]]]];
      repeat first [ apply dict_get_set_same
                   | rewrite dict_get_set_other by discriminate ].
Qed.

(** The theorem at the world of the precedence example: after
    [set_region("ap-south-1")], [get_region] returns it, though the
    environment names another region. *)
Lemma set_region_then_get_region_witness :
  dict_has "ec2" (clients world_region_all) = true
  /\ plain "ap-south-1" = true
  /\ fst (set_region "ap-south-1" world_region_all) = Ok tt
  /\ fst (get_region (snd (set_region "ap-south-1" world_region_all))) = Ok "ap-south-1".
Proof.
  split; [reflexivity|]. split; [reflexivity|].
  destruct (set_region_then_get_region world_region_all "ap-south-1"
              ["us-east-1"; "us-west-2"; "eu-west-1"; "ap-south-1"]
              eq_refl eq_refl eq_refl eq_refl) as (H1 & _ & H3 & _).
  split; [exact H1 | exact H3].
Defined.

(** X9: [set_region] checks the region before anything else: unless
    [describe_regions] answers with a list that has the region, the call
    raises and the world is as it was (no config file is created, [CONFIG]
    is not cleared, no client is rebound). *)
Theorem set_region_checks_first w region :
  region_listed w region = false ->
  is_ok (fst (set_region region w)) = false /\ snd (set_region region w) = w.
Proof.
  intros H.
  assert (E : exists e, set_region region w = (Raise e, w)).
  { unfold region_listed in H. unfold set_region, describe_regions.
    unfold bind at 1. destruct (dict_get "ec2" (clients w)); [|eauto].
    destruct (region_catalog w) as [region_names|e]; [|eauto].
    unfold bind at 1. rewrite H. eexists. reflexivity. }
  destruct E as [e ->]. split; reflexivity.
Qed.

(** The theorem at a region that is not listed, on a machine without a
    config file: none is created. *)
Lemma set_region_checks_first_witness :
  region_listed world_without_file "mars-1" = false
  /\ snd (set_region "mars-1" world_without_file) = world_without_file
  /\ files (snd (set_region "mars-1" world_without_file)) = [].
Proof.
  split; [reflexivity|].
  destruct (set_region_checks_first world_without_file "mars-1" eq_refl) as [_ H].
  split; [exact H | now rewrite H].
Defined.

(** X10: [get_region] stores before it returns: when the config file has
    no region and the region found in the environment or in the ambient AWS
    config file is not a value the parser accepts, [get_region] raises
    [ValueError] and the config file is not written. *)
Theorem get_region_unstorable w region :
  stored_region w = false ->
  region_by_precedence w = Ok region ->
  is_ok (configparser.before_set region) = false ->
  fst (get_region w) = Raise (ValueError "invalid interpolation syntax")
  /\ files (snd (get_region w)) = files (touched w).
Proof.
  intros Hs Hr Hv. pose proof Hs as Hs'.
  destruct (before_set_fails _ Hv) as [Hne Hb]. apply String.eqb_neq in Hne.
  assert (Hset : forall P, configparser.set P "aws" "region" region
                           = Raise (ValueError "invalid interpolation syntax")).
  { intros P. unfold configparser.set. now rewrite Hne, Hb. }
  assert (Eq : exists P,
             get_region w
             = (Raise (ValueError "invalid interpolation syntax"),
                with_CONFIG (touched w) P)).
  { unfold stored_region in Hs.
    unfold get_region. rewrite load_eq.
    unfold bind at 1, CONFIG_has_section at 1, CONFIG_query at 1.
    cbn [CONFIG with_CONFIG].
    unfold bind at 1.
    assert (E : (if configparser.has_section (loaded w) "aws"
                 then CONFIG_has_option "aws" "region" else ret false)
                  (with_CONFIG (touched w) (loaded w))
                = (Ok false, with_CONFIG (touched w) (loaded w))).
    { destruct (configparser.has_section (loaded w) "aws"); [|reflexivity].
      unfold CONFIG_has_option, CONFIG_query. simpl. simpl in Hs. now rewrite Hs. }
    rewrite E. cbn iota.
    rewrite (fallback_chain_eq w Hs'). rewrite Hr.
    run_py. unfold configparser.has_section, dict_has.
    destruct (dict_get "aws" (configparser._sections (loaded w))) as [d|] eqn:Ed; run_py.
    - rewrite Hset. eexists. reflexivity.
    - unfold configparser.add_section, dict_has. rewrite Ed. run_py.
      rewrite Hset. eexists. reflexivity. }
  destruct Eq as [P ->]. split; reflexivity.
Qed.

(** The theorem at an environment that names [us%west]. *)
Lemma get_region_unstorable_witness :
  stored_region world_region_bad_env = false
  /\ region_by_precedence world_region_bad_env = Ok "us%west"
  /\ is_ok (configparser.before_set "us%west") = false
  /\ fst (get_region world_region_bad_env)
     = Raise (ValueError "invalid interpolation syntax")
  /\ files (snd (get_region world_region_bad_env)) = files world_region_bad_env.
Proof.
  split; [reflexivity|]. split; [reflexivity|]. split; [reflexivity|].
  exact (get_region_unstorable world_region_bad_env "us%west" eq_refl eq_refl eq_refl).
Defined.

(** ** [verify_sections] and [section_approved] *)

Lemma dict_get_filter_key (V : Type) (f : string -> bool) k (d : dict V) :
  dict_get k (filter (fun kv => f (fst kv)) d) = if f k then dict_get k d else None.
Proof.
  induction d as [|[k0 v0] r IH]; simpl; [now destruct (f k)|].
  destruct (f k0) eqn:E0; simpl.
  - destruct (String.eqb_spec k0 k) as [->|N]; [now rewrite E0 | exact IH].
  - destruct (String.eqb_spec k0 k) as [->|N]; [now rewrite E0 in * | exact IH].
Qed.

Lemma dict_keys_filter_key (V : Type) (f : string -> bool) (d : dict V) :
  dict_keys (filter (fun kv => f (fst kv)) d) = filter f (dict_keys d).
Proof.
  unfold dict_keys. induction d as [|[k0 v0] r IH]; simpl; [reflexivity|].
  destruct (f k0); simpl; now rewrite IH.
Qed.

(** X11: when [verify_sections] returns, [CONFIG] holds the sections of
    the config file that [section_approved] accepts, in the order of the
    file and with the options they have there, and no other section. *)
Theorem verify_sections_keeps_approved w :
  fst (verify_sections w) = Ok tt ->
  let after := CONFIG (snd (verify_sections w)) in
  configparser.sections after
  = filter section_approved (configparser.sections (fresh_read w))
  /\ (forall s,
        section_of after s
        = if section_approved s then section_of (fresh_read w) s else None).
Proof.
  intros _ after. unfold after. rewrite verify_sections_eq. cbn [fst snd CONFIG with_CONFIG].
  split.
  - unfold configparser.sections, verified. cbn [configparser._sections].
    now rewrite dict_keys_filter_key, loaded_sections.
  - intros s. unfold section_of, verified. cbn [configparser._sections].
    now rewrite dict_get_filter_key, loaded_sections.
Qed.

(** The theorem at a file with a section that is not approved. *)
Lemma verify_sections_keeps_approved_witness :
  fst (verify_sections world_with_stray_section) = Ok tt
  /\ configparser.sections (CONFIG (snd (verify_sections world_with_stray_section)))
     = ["roles"]
  /\ section_of (CONFIG (snd (verify_sections world_with_stray_section))) "scratch" = None.
Proof.
  destruct (verify_sections_keeps_approved world_with_stray_section eq_refl) as [H1 H2].
  split; [reflexivity|]. split.
  - rewrite H1. reflexivity.
  - rewrite (H2 "scratch"). reflexivity.
Defined.

Lemma split_space_head_word head tail :
  contains_char " "%char head = false ->
  split_space_head (head ++ String " "%char tail) = head.
Proof.
  induction head as [|c r IH]; intros H; [reflexivity|].
  cbn [contains_char] in H. apply orb_false_iff in H as [H1 H2].
  cbn [append split_space_head]. rewrite H1. now rewrite (IH H2).
Qed.

Lemma split_space_head_whole s :
  contains_char " "%char s = false -> split_space_head s = s.
Proof.
  induction s as [|c r IH]; intros H; [reflexivity|].
  cbn [contains_char] in H. apply orb_false_iff in H as [H1 H2].
  cbn [split_space_head]. rewrite H1. now rewrite (IH H2).
Qed.

Lemma contains_char_app c s t :
  contains_char c (s ++ t) = contains_char c s || contains_char c t.
Proof.
  induction s as [|c' r IH]; [reflexivity|].
  cbn [append contains_char]. rewrite IH. now rewrite orb_assoc.
Qed.

Lemma approved_sections_one_word s :
  str_in s approved_sections = true -> contains_char " "%char s = false.
Proof.
  intros H. apply str_in_In in H. unfold approved_sections in H. cbn [In] in H.
  repeat (destruct H as [<-|H]; [reflexivity|]). destruct H.
Qed.

(** X12: what [section_approved] accepts.  A name of several words is
    approved exactly when its first word is [pars] or [jars]; a name of one
    word exactly when it is one of the nine fixed names or is [pars] or
    [jars] itself. *)
Theorem section_approved_by_first_word :
  (forall head tail,
     contains_char " "%char head = false ->
     section_approved (head ++ String " "%char tail) = str_in head ["pars"; "jars"])
  /\ (forall s,
        contains_char " "%char s = false ->
        section_approved s = str_in s (approved_sections ++ ["pars"; "jars"])).
Proof.
  split.
  - intros head tail H. unfold section_approved.
    rewrite (split_space_head_word head tail H).
    destruct (str_in (head ++ String " "%char tail) approved_sections) eqn:E;
      [|reflexivity].
    apply approved_sections_one_word in E.
    rewrite contains_char_app in E. cbn [contains_char] in E.
    rewrite Ascii.eqb_refl in E. cbn [orb] in E. rewrite orb_true_r in E. discriminate.
  - intros s H. unfold section_approved. rewrite (split_space_head_whole s H).
    unfold str_in. now rewrite existsb_app.
Qed.

(** The theorem at the names of a few sections. *)
Lemma section_approved_by_first_word_witness :
  section_approved "pars my-pipeline" = true
  /\ section_approved "parsley my-pipeline" = false
  /\ section_approved "job queues" = false
  /\ section_approved "jars" = true.
Proof.
  destruct section_approved_by_first_word as [H1 H2].
  split; [exact (H1 "pars" "my-pipeline" eq_refl)|].
  split; [exact (H1 "parsley" "my-pipeline" eq_refl)|].
  split; [exact (H1 "job" "queues" eq_refl)|].
  exact (H2 "jars" eq_refl).
Defined.

(** ** More on [prune] *)

Lemma has_section_pruned_step_other state P step s :
  s <> fst step ->
  configparser.has_section (pruned_step state P step) s = configparser.has_section P s.
Proof.
  intros N. pose proof (section_of_pruned_step_other state P step s N) as E.
  unfold section_of in E. unfold configparser.has_section, dict_has. now rewrite E.
Qed.

Lemma step_names_pruned_step_other state P step step' :
  fst step' <> fst step ->
  step_names (pruned_step state P step) step' = step_names P step'.
Proof.
  intros N. unfold step_names, configparser.options.
  pose proof (section_of_pruned_step_other state P step (fst step') N) as E.
  unfold section_of in E. now rewrite E, defaults_pruned_step.
Qed.

Lemma step_passes_pruned_step_other state P step step' :
  fst step' <> fst step ->
  step_passes state (pruned_step state P step) step' = step_passes state P step'.
Proof.
  intros N. unfold step_passes.
  now rewrite has_section_pruned_step_other, step_names_pruned_step_other.
Qed.

Lemma step_calls_pruned_step_other state P step step' :
  fst step' <> fst step ->
  step_calls (pruned_step state P step) step' = step_calls P step'.
Proof.
  intros N. unfold step_calls. now rewrite step_names_pruned_step_other.
Qed.

Lemma NoDup_fst_head (step : Step) (rest : list Step) :
  NoDup (map fst (step :: rest)) ->
  NoDup (map fst rest) /\ forall step', In step' rest -> fst step' <> fst step.
Proof.
  cbn [map]. intros H. apply NoDup_cons_iff in H as [Hx Hr]. split; [exact Hr|].
  intros step' Hin E. apply Hx. rewrite <- E. apply in_map_iff. now exists step'.
Qed.

(** Steps on different sections pass together when each passes on the
    file as loaded. *)
Lemma plan_passes_start state plan : forall P,
  NoDup (map fst plan) ->
  forallb (step_passes state P) plan = true ->
  plan_passes state P plan = true.
Proof.
  induction plan as [|step rest IH]; intros P Hnd H; [reflexivity|].
  destruct (NoDup_fst_head step rest Hnd) as [Hnd' Hne].
  cbn [forallb] in H. apply andb_true_iff in H as [H1 H2].
  cbn [plan_passes]. rewrite H1. cbn [andb]. apply IH; [exact Hnd'|].
  apply forallb_forall. intros step' Hin.
  rewrite step_passes_pruned_step_other by now apply Hne.
  rewrite forallb_forall in H2. now apply H2.
Qed.

Lemma flat_map_same (A B : Type) (f g : A -> list B) (l : list A) :
  (forall x, In x l -> f x = g x) -> flat_map f l = flat_map g l.
Proof.
  induction l as [|x r IH]; intros H; [reflexivity|].
  cbn [flat_map]. rewrite (H x (or_introl eq_refl)). f_equal.
  apply IH. intros y Hy. apply H. now right.
Qed.

Lemma plan_calls_start state plan : forall P,
  NoDup (map fst plan) ->
  plan_calls state P plan = flat_map (step_calls P) plan.
Proof.
  induction plan as [|step rest IH]; intros P Hnd; [reflexivity|].
  destruct (NoDup_fst_head step rest Hnd) as [Hnd' Hne].
  cbn [plan_calls flat_map]. f_equal. rewrite (IH _ Hnd').
  apply flat_map_same. intros step' Hin.
  apply step_calls_pruned_step_other. now apply Hne.
Qed.

Lemma section_of_fold_unwalked state plan : forall P s,
  (forall c k, ~ In (s, Some (c, k)) plan) ->
  section_of (fold_left (pruned_step state) plan P) s = section_of P s.
Proof.
  induction plan as [|step rest IH]; intros P s H; [reflexivity|].
  cbn [fold_left]. rewrite IH by (intros c k Hin; apply (H c k); now right).
  destruct (String.eqb_spec s (fst step)) as [->|N];
    [|now apply section_of_pruned_step_other].
  destruct step as [section [[c k]|]]; [|reflexivity].
  exfalso. apply (H c k). now left.
Qed.

(** X13: when each of the eight sections is in the config file and no
    existence check fails otherwise than with "does not exist", [prune]
    returns; each section it checks holds the entries whose resource was
    not found gone; every other section of the file is in [CONFIG] as it is
    in the file, [docker-repos] and the sections that [verify_sections]
    rejects included; and the checks made are, section after section in the
    order of [prune], one per option: [IamRole(name=...)] for [roles],
    [job-definitions], [compute-environments] and [job-queues],
    [Vpc(vpc_id=...)], [SecurityGroup(security_group_id=...)] and
    [IamRole(job_id=...)] for [jobs]. *)
Theorem prune_runs_through w :
  forallb (step_passes (resource_state w) (prune_start w)) prune_plan = true ->
  let r := prune w in
  fst r = Ok tt
  /\ (forall s c k d,
        In (s, Some (c, k)) prune_plan ->
        section_of (fresh_read w) s = Some d ->
        section_of (CONFIG (snd r)) s
        = Some (pruned_dict (gone (resource_state w) c k)
                            (option_names (prune_start w) s) d))
  /\ (forall s,
        (forall c k, ~ In (s, Some (c, k)) prune_plan) ->
        section_of (CONFIG (snd r)) s = section_of (fresh_read w) s)
  /\ resource_calls (snd r)
     = (resource_calls w
          ++ map (mk_call IamRole "name") (option_names (prune_start w) "roles")
          ++ map (mk_call Vpc "vpc_id") (option_names (prune_start w) "vpc")
          ++ map (mk_call SecurityGroup "security_group_id")
                 (option_names (prune_start w) "security-groups")
          ++ map (mk_call IamRole "name")
                 (option_names (prune_start w) "job-definitions")
          ++ map (mk_call IamRole "name")
                 (option_names (prune_start w) "compute-environments")
          ++ map (mk_call IamRole "name") (option_names (prune_start w) "job-queues")
          ++ map (mk_call IamRole "job_id") (option_names (prune_start w) "jobs"))%list.
Proof.
  intros H r.
  pose proof (plan_passes_start _ prune_plan (prune_start w) prune_plan_names H) as Hp.
  assert (Er : r = (Ok tt,
                    with_resource_calls
                      (with_CONFIG (touched w)
                         (fold_left (pruned_step (resource_state w)) prune_plan
                                    (prune_start w)))
                      (resource_calls w
                         ++ plan_calls (resource_state w) (prune_start w) prune_plan))).
  { unfold r. rewrite prune_eq.
    rewrite <- (resource_state_touched w) in Hp.
    rewrite (run_plan_pass prune_plan (touched w) _ _ eq_refl Hp).
    now rewrite (resource_state_touched w). }
  rewrite Er. cbn [fst snd CONFIG resource_calls with_CONFIG with_resource_calls].
  split; [reflexivity|]. split; [|split].
  - intros s c k d Hin E. rewrite <- section_of_prune_start in E.
    now apply section_of_fold_step; [apply prune_plan_names | |].
  - intros s Hs. rewrite section_of_fold_unwalked by assumption.
    apply section_of_prune_start.
  - rewrite (plan_calls_start _ prune_plan _ prune_plan_names).
    unfold prune_plan, step_calls, option_names, step_names. cbn [flat_map fst snd app].
    now rewrite !app_nil_r.
Qed.

(** The theorem at a config file with a stale role and a stale job queue:
    both leave [CONFIG], [docker-repos] keeps its entry of the same name,
    which is not checked, and the section [scratch] is still there. *)
Lemma prune_runs_through_witness :
  forallb (step_passes (resource_state world_all_pass) (prune_start world_all_pass))
          prune_plan = true
  /\ fst (prune world_all_pass) = Ok tt
  /\ section_of (CONFIG (snd (prune world_all_pass))) "roles"
     = Some [("knot-role", "arn:aws:iam::1:role/knot-role")]
  /\ section_of (CONFIG (snd (prune world_all_pass))) "job-queues" = Some []
  /\ section_of (CONFIG (snd (prune world_all_pass))) "docker-repos"
     = Some [("stale-role", "123.dkr.ecr/stale-role")]
  /\ section_of (CONFIG (snd (prune world_all_pass))) "scratch"
     = Some [("note", "left over")].
Proof.
  split; [reflexivity|].
  destruct (prune_runs_through world_all_pass eq_refl) as (H1 & H2 & H3 & _).
  split; [exact H1|]. split; [|split; [|split]].
  - exact (H2 "roles" IamRole "name" _ (or_introl eq_refl) eq_refl).
  - exact (H2 "job-queues" IamRole "name" _
              (or_intror (or_intror (or_intror (or_intror (or_intror
                 (or_intror (or_introl eq_refl))))))) eq_refl).
  - rewrite (H3 "docker-repos"); [reflexivity|].
    intros c k Hin. cbn [prune_plan In] in Hin.
    repeat (destruct Hin as [Hin|Hin]; [discriminate|]). exact Hin.
  - rewrite (H3 "scratch"); [reflexivity|].
    intros c k Hin. cbn [prune_plan In] in Hin.
    repeat (destruct Hin as [Hin|Hin]; [discriminate|]). exact Hin.
Defined.

(** *** [prune] only removes options *)

Lemma shrinks_refl P : shrinks P P.
Proof.
  split; [reflexivity|]. intros s d E. exists d. split; [exact E | apply incl_refl].
Qed.

Lemma shrinks_trans P1 P2 P3 : shrinks P1 P2 -> shrinks P2 P3 -> shrinks P1 P3.
Proof.
  intros [A1 A2] [B1 B2]. split; [congruence|].
  intros s d E. destruct (A2 s d E) as (d2 & E2 & I2).
  destruct (B2 s d2 E2) as (d3 & E3 & I3).
  exists d3. split; [exact E3 | exact (incl_tran I3 I2)].
Qed.

Lemma remove_option_shrinks P section opt existed P' :
  configparser.remove_option P section opt = Ok (existed, P') -> shrinks P P'.
Proof.
  unfold configparser.remove_option.
  destruct ((section =? "")%string || (section =? configparser.DEFAULTSECT)%string).
  - intros E. injection E as _ <-.
    destruct (dict_has _ (configparser._defaults P)); [|apply shrinks_refl].
    split; [reflexivity|]. intros s d Es. exists d. split; [exact Es | apply incl_refl].
  - destruct (dict_get section (configparser._sections P)) as [sectdict|] eqn:Ed;
      [|discriminate].
    intros E. injection E as _ <-.
    destruct (dict_has _ sectdict); [|apply shrinks_refl].
    split.
    + unfold configparser.sections. cbn [configparser._sections].
      rewrite dict_keys_set. unfold dict_has. now rewrite Ed.
    + intros s d Es. unfold section_of in *. cbn [configparser._sections].
      destruct (String.eqb_spec s section) as [->|N].
      * rewrite dict_get_set_same. rewrite Ed in Es. injection Es as <-.
        eexists. split; [reflexivity|]. unfold dict_del. apply incl_filter.
      * rewrite dict_get_set_other by assumption.
        exists d. split; [exact Es | apply incl_refl].
Qed.

Lemma only_removes_ret (A : Type) (a : A) : only_removes (ret a).
Proof. intros w. apply shrinks_refl. Qed.

Lemma only_removes_bind (A B : Type) (m : M A) (k : A -> M B) :
  only_removes m -> (forall a, only_removes (k a)) -> only_removes (bind m k).
Proof.
  intros Hm Hk w. unfold bind. specialize (Hm w).
  destruct (m w) as [[a|e] w']; cbn [snd] in *; [|assumption].
  exact (shrinks_trans _ _ _ Hm (Hk a w')).
Qed.

Lemma only_removes_try (A : Type) (body : M A) (handler : exn -> option (M A)) :
  only_removes body ->
  (forall e h, handler e = Some h -> only_removes h) ->
  only_removes (try_except body handler).
Proof.
  intros Hb Hh w. unfold try_except. specialize (Hb w).
  destruct (body w) as [[a|e] w']; cbn [snd] in *; [assumption|].
  destruct (handler e) as [h|] eqn:E; [|assumption].
  exact (shrinks_trans _ _ _ Hb (Hh e h E w')).
Qed.

Lemma only_removes_for_each (A : Type) (l : list A) (body : A -> M unit) :
  (forall x, only_removes (body x)) -> only_removes (for_each l body).
Proof.
  intros Hb. induction l as [|x r IH]; [apply only_removes_ret|].
  cbn [for_each]. apply only_removes_bind; [apply Hb | intros _; apply IH].
Qed.

Lemma only_removes_CONFIG_remove_option section name :
  only_removes (CONFIG_remove_option section name).
Proof.
  intros w. unfold CONFIG_remove_option.
  destruct (configparser.remove_option (CONFIG w) section name) as [[existed P]|e] eqn:E;
    cbn [snd CONFIG with_CONFIG]; [|apply shrinks_refl].
  exact (remove_option_shrinks _ _ _ _ _ E).
Qed.

Lemma only_removes_instantiate cls keyword name :
  only_removes (instantiate cls keyword name).
Proof.
  intros w. unfold instantiate. destruct (resource_state w _); apply shrinks_refl.
Qed.

Lemma only_removes_run_step step : only_removes (run_step step).
Proof.
  destruct step as [section [[cls keyword]|]]; unfold run_step; cbn [fst snd].
  - unfold prune_loop. apply only_removes_bind; [intros w; apply shrinks_refl|].
    intros names. apply only_removes_for_each. intros name.
    apply only_removes_try; [apply only_removes_instantiate|].
    intros e h E. destruct e; try discriminate. injection E as <-.
    apply only_removes_bind; [apply only_removes_CONFIG_remove_option|].
    intros _. apply only_removes_ret.
  - apply only_removes_bind; [intros w; apply shrinks_refl|].
    intros names. apply only_removes_for_each. intros _. apply only_removes_ret.
Qed.

(** X14: whatever the existence checks answer, and whether [prune] returns
    or raises, [CONFIG] ends with the sections of the config file, all of
    them and in the order of the file, each holding entries that it has in
    the file: [prune] takes options out, it adds nothing and drops no
    section, not even one that [verify_sections] rejects. *)
Theorem prune_only_removes w :
  let P := CONFIG (snd (prune w)) in
  configparser.sections P = configparser.sections (fresh_read w)
  /\ forall s d,
       section_of (fresh_read w) s = Some d ->
       exists d', section_of P s = Some d' /\ incl d' d.
Proof.
  intros P.
  assert (H : shrinks (prune_start w) P).
  { unfold P. rewrite prune_eq.
    exact (only_removes_for_each _ prune_plan run_step only_removes_run_step
             (with_resource_calls (with_CONFIG (touched w) (prune_start w))
                                  (resource_calls w))). }
  destruct H as [H1 H2]. split.
  - rewrite H1. unfold configparser.sections, prune_start.
    now rewrite loaded_after_verify, loaded_sections.
  - intros s d E. apply H2. now rewrite section_of_prune_start.
Qed.

(** ** What is written *)

Lemma off_path_refl cp w : off_path_untouched cp w w.
Proof. repeat split; auto. Qed.

Lemma off_path_trans cp w1 w2 w3 :
  off_path_untouched cp w1 w2 -> off_path_untouched cp w2 w3 ->
  off_path_untouched cp w1 w3.
Proof.
  intros (A1 & A2 & A3 & A4 & A5) (B1 & B2 & B3 & B4 & B5).
  repeat split; try congruence.
  - intros p N. now rewrite B4, A4.
  - intros p H. auto.
Qed.

Lemma off_path_same_disk cp w w' : same_disk w w' -> off_path_untouched cp w w'.
Proof.
  intros (H1 & H2 & H3 & H4). repeat split; try assumption.
  - intros p _. now rewrite H1.
  - intros p H. now rewrite H1.
Qed.

Lemma off_path_touched w : off_path_untouched (config_path w) w (touched w).
Proof.
  unfold touched. destruct (dict_has (config_path w) (files w)) eqn:E;
    [apply off_path_refl|].
  repeat split.
  - intros p N. cbn [files with_files]. now apply dict_get_set_other.
  - intros p H. cbn [files with_files]. unfold dict_has in *.
    destruct (String.eqb_spec p (config_path w)) as [->|N].
    + now rewrite dict_get_set_same.
    + now rewrite dict_get_set_other.
Qed.

Lemma writes_only_keeps_disk (A : Type) cp (m : M A) : keeps_disk m -> writes_only cp m.
Proof.
  intros H w. apply off_path_same_disk, H.
Qed.

Lemma writes_only_bind (A B : Type) cp (m : M A) (k : A -> M B) :
  writes_only cp m -> (forall a, writes_only cp (k a)) -> writes_only cp (bind m k).
Proof.
  intros Hm Hk w. unfold bind. specialize (Hm w).
  destruct (m w) as [[a|e] w']; cbn [snd] in *; [|assumption].
  exact (off_path_trans _ _ _ _ Hm (Hk a w')).
Qed.

Lemma writes_only_CONFIG_write cp : writes_only cp (CONFIG_write cp).
Proof.
  intros w. unfold CONFIG_write, open_w. cbn [snd]. repeat split.
  - intros p N. cbn [files with_files]. now apply dict_get_set_other.
  - intros p H. cbn [files with_files]. unfold dict_has in *.
    destruct (String.eqb_spec p cp) as [->|N].
    + now rewrite dict_get_set_same.
    + now rewrite dict_get_set_other.
Qed.

Lemma keeps_disk_when c (m : M unit) : keeps_disk m -> keeps_disk (when c m).
Proof.
  intros H. destruct c; [exact H | apply keeps_disk_ret].
Qed.

Lemma keeps_disk_CONFIG_query (A : Type) (f : configparser.ConfigParser -> A) :
  keeps_disk (CONFIG_query f).
Proof. intros w. apply same_disk_refl. Qed.

Lemma keeps_disk_CONFIG_try (A : Type) (f : configparser.ConfigParser -> Result A) :
  keeps_disk (CONFIG_try f).
Proof. intros w. apply same_disk_refl. Qed.

Lemma keeps_disk_CONFIG_update f : keeps_disk (CONFIG_update f).
Proof.
  intros w. unfold CONFIG_update. destruct (f (CONFIG w)); repeat split.
Qed.

Lemma keeps_disk_rebind_client service region :
  keeps_disk (rebind_client service region).
Proof. intros w. repeat split. Qed.

Lemma keeps_disk_lift (A : Type) (r : Result A) : keeps_disk (lift r).
Proof. intros w. apply same_disk_refl. Qed.

Lemma keeps_disk_raise (A : Type) (e : exn) : keeps_disk (@raise A e).
Proof. intros w. apply same_disk_refl. Qed.

Lemma keeps_disk_os_environ name : keeps_disk (os_environ name).
Proof.
  intros w. unfold os_environ. destruct (dict_get name (environ w)); apply same_disk_refl.
Qed.

Lemma keeps_disk_describe_regions : keeps_disk describe_regions.
Proof.
  intros w. unfold describe_regions.
  destruct (dict_get "ec2" (clients w)); apply same_disk_refl.
Qed.

(** The tail of the operations that end with a write: the section [aws]
    or [section] is added when missing, the option is set, [CONFIG] is
    written to [cp]. *)
Lemma writes_only_set_and_write cp section opt value (c : bool) :
  writes_only cp
    (when c (CONFIG_add_section section) ;;
     CONFIG_set section opt value ;;
     CONFIG_write cp).
Proof.
  apply writes_only_bind;
    [apply writes_only_keeps_disk, keeps_disk_when, keeps_disk_CONFIG_update|].
  intros _. apply writes_only_bind;
    [apply writes_only_keeps_disk, keeps_disk_CONFIG_update|].
  intros _. apply writes_only_CONFIG_write.
Qed.

(** The part of [get_region] that looks for a region outside the config
    file reads and does not write. *)
Lemma keeps_disk_region_fallback :
  keeps_disk
    (try_except
       (os_environ "AWS_DEFAULT_REGION")
       (fun e =>
          match e with
          | KeyError _ =>
              Some (home <- os_path_expanduser_home ;;
                    let aws_config_file := os_path_join home [".aws"; "config"] in
                    is_file <- os_path_isfile aws_config_file ;;
                    if is_file then
                      fun w =>
                        let aws_config := read_file configparser.new aws_config_file w in
                        try_except
                          (lift (configparser.get aws_config "default" "region" false
                                                  (Some fallback_region)))
                          (fun e =>
                             match e with
                             | TypeError =>
                                 Some (region <- lift (configparser.get aws_config "default"
                                                                        "region" false None) ;;
                                       ret (if String.eqb region "" then fallback_region
                                            else region))
                             | _ => None
                             end) w
                    else
                      ret fallback_region)
          | _ => None
          end)).
Proof.
  apply keeps_disk_try; [apply keeps_disk_os_environ|].
  intros e h E. destruct e; try discriminate. injection E as <-.
  apply keeps_disk_bind; [intros w; apply same_disk_refl|]. intros home.
  apply keeps_disk_bind; [intros w; apply same_disk_refl|]. intros is_file.
  destruct is_file; [|apply keeps_disk_ret].
  intros w.
  refine (keeps_disk_try _ _ _ (keeps_disk_lift _ _) _ w).
  intros e h E. destruct e; try discriminate. injection E as <-.
  apply keeps_disk_bind; [apply keeps_disk_lift|]. intros region. apply keeps_disk_ret.
Qed.

Lemma off_path_loaded (A : Type) (k : string -> M A) w :
  writes_only (config_path w) (k (config_path w)) ->
  off_path_untouched (config_path w) w
    (snd ((config_file <- get_config_file ;;
           CONFIG_clear ;;
           CONFIG_read config_file ;;
           k config_file) w)).
Proof.
  intros H. rewrite load_eq.
  apply off_path_trans with (with_CONFIG (touched w) (loaded w)); [|apply H].
  apply off_path_trans with (touched w); [apply off_path_touched|].
  apply off_path_same_disk. repeat split.
Qed.

(** What each operation leaves of the files outside the config file. *)
Lemma operations_off_path w :
  let quiet := off_path_untouched (config_path w) w in
  quiet (snd (get_config_file w))
  /\ quiet (snd (get_region w))
  /\ (forall region, quiet (snd (set_region region w)))
  /\ (forall section opt value, quiet (snd (add_resource section opt value w)))
  /\ (forall section opt, quiet (snd (remove_resource section opt w)))
  /\ quiet (snd (verify_sections w))
  /\ quiet (snd (prune w)).
Proof.
  intros quiet. unfold quiet.
  split; [rewrite get_config_file_eq; apply off_path_touched|].
  split; [|split; [|split; [|split; [|split]]]].
  - unfold get_region. apply off_path_loaded.
    apply writes_only_bind; [apply writes_only_keeps_disk, keeps_disk_CONFIG_query|].
    intros has_aws. apply writes_only_bind.
    { destruct has_aws; apply writes_only_keeps_disk;
        [apply keeps_disk_CONFIG_query | apply keeps_disk_ret]. }
    intros has_region. destruct has_region;
      [apply writes_only_keeps_disk, keeps_disk_CONFIG_try|].
    apply writes_only_bind;
      [apply writes_only_keeps_disk, keeps_disk_region_fallback|].
    intros region. apply writes_only_bind;
      [apply writes_only_keeps_disk, keeps_disk_CONFIG_query|].
    intros has_aws'. apply writes_only_bind;
      [apply writes_only_keeps_disk, keeps_disk_when, keeps_disk_CONFIG_update|].
    intros _. apply writes_only_bind;
      [apply writes_only_keeps_disk, keeps_disk_CONFIG_update|].
    intros _. apply writes_only_bind; [apply writes_only_CONFIG_write|].
    intros _. apply writes_only_keeps_disk, keeps_disk_ret.
  - intros region. unfold set_region, describe_regions. unfold bind at 1.
    destruct (dict_get "ec2" (clients w)); [|apply off_path_refl].
    destruct (region_catalog w) as [region_names|e]; [|apply off_path_refl].
    unfold bind at 1.
    destruct (str_in region region_names); [|apply off_path_refl].
    cbn [negb when]. unfold ret at 1.
    apply off_path_loaded.
    apply writes_only_bind; [apply writes_only_keeps_disk, keeps_disk_CONFIG_query|].
    intros has_aws. apply writes_only_bind;
      [apply writes_only_keeps_disk, keeps_disk_when, keeps_disk_CONFIG_update|].
    intros _. apply writes_only_bind;
      [apply writes_only_keeps_disk, keeps_disk_CONFIG_update|].
    intros _. apply writes_only_bind; [apply writes_only_CONFIG_write|].
    intros _. apply writes_only_keeps_disk.
    repeat (apply keeps_disk_bind; [apply keeps_disk_rebind_client | intros _]).
    apply keeps_disk_rebind_client.
  - intros section opt value. unfold add_resource. apply off_path_loaded.
    apply writes_only_bind; [apply writes_only_keeps_disk, keeps_disk_CONFIG_query|].
    intros sections. apply writes_only_bind;
      [apply writes_only_keeps_disk, keeps_disk_when, keeps_disk_CONFIG_update|].
    intros _. apply writes_only_bind;
      [apply writes_only_keeps_disk, keeps_disk_CONFIG_update|].
    intros _. apply writes_only_CONFIG_write.
  - intros section opt. unfold remove_resource. apply off_path_loaded.
    apply writes_only_bind;
      [apply writes_only_keeps_disk, keeps_disk_CONFIG_remove_option|].
    intros _. apply writes_only_CONFIG_write.
  - rewrite verify_sections_eq. cbn [snd].
    apply off_path_trans with (touched w); [apply off_path_touched|].
    apply off_path_same_disk. repeat split.
  - apply off_path_trans with (touched w); [apply off_path_touched|].
    apply off_path_same_disk, prune_same_disk.
Qed.

(** X15: no operation writes a file other than the config file.  After
    each of the seven operations, whether it returns or raises, every other
    path holds what it held, the ambient AWS config file among them, no
    file has gone, and the environment is the same. *)
Theorem only_config_file_written w :
  let quiet := off_path_untouched (config_path w) w in
  quiet (snd (get_config_file w))
  /\ quiet (snd (get_region w))
  /\ (forall region, quiet (snd (set_region region w)))
  /\ (forall section opt value, quiet (snd (add_resource section opt value w)))
  /\ (forall section opt, quiet (snd (remove_resource section opt w)))
  /\ quiet (snd (verify_sections w))
  /\ quiet (snd (prune w)).
Proof.
  exact (operations_off_path w).
Qed.

(** The theorem at the ambient AWS config file of the precedence example. *)
Lemma only_config_file_written_witness :
  home_aws_config <> config_path world_region_env
  /\ dict_get home_aws_config (files (snd (get_region world_region_env)))
     = Some region_in_ambient
  /\ dict_get home_aws_config (files (snd (set_region "eu-west-1" world_region_env)))
     = Some region_in_ambient.
Proof.
  assert (N : home_aws_config <> config_path world_region_env) by discriminate.
  destruct (only_config_file_written world_region_env)
    as (_ & (_ & _ & _ & H2 & _) & H3 & _).
  destruct (H3 "eu-west-1") as (_ & _ & _ & H3' & _).
  split; [exact N|]. split.
  - rewrite (H2 _ N). reflexivity.
  - rewrite (H3' _ N). reflexivity.
Defined.

(** A missing config file is an empty one: every operation that loads the
    file runs as it does once [get_config_file] has created it. *)
Lemma load_touched (A : Type) (k : string -> M A) w :
  (config_file <- get_config_file ;;
   CONFIG_clear ;;
   CONFIG_read config_file ;;
   k config_file) (touched w)
  = (config_file <- get_config_file ;;
     CONFIG_clear ;;
     CONFIG_read config_file ;;
     k config_file) w.
Proof.
  rewrite !load_eq. rewrite config_path_touched, touched_idem.
  unfold loaded. now rewrite CONFIG_touched, config_content_touched.
Qed.

Lemma verify_sections_touched w : verify_sections (touched w) = verify_sections w.
Proof. unfold verify_sections. apply load_touched. Qed.

Lemma prune_touched w : prune (touched w) = prune w.
Proof.
  rewrite !prune_eq. unfold prune_start.
  now rewrite verify_sections_touched, touched_idem, resource_calls_touched.
Qed.

(** X16: none of the operations deletes the config file: when it is
    there before [get_region], [add_resource], [remove_resource],
    [verify_sections] or [prune], it is there afterwards, whether the
    operation returns or raises. *)
Theorem config_file_stays w :
  dict_has (config_path w) (files w) = true ->
  let there := fun w' : World => dict_has (config_path w) (files w') = true in
  there (snd (get_region w))
  /\ (forall section opt value, there (snd (add_resource section opt value w)))
  /\ (forall section opt, there (snd (remove_resource section opt w)))
  /\ there (snd (verify_sections w))
  /\ there (snd (prune w)).
Proof.
  intros Ht there. unfold there.
  destruct (operations_off_path w) as (_ & H1 & _ & H3 & H4 & H5 & H6).
  split; [|split; [|split; [|split]]].
  - destruct H1 as (_ & _ & _ & _ & H). exact (H _ Ht).
  - intros section opt value.
    destruct (H3 section opt value) as (_ & _ & _ & _ & H). exact (H _ Ht).
  - intros section opt.
    destruct (H4 section opt) as (_ & _ & _ & _ & H). exact (H _ Ht).
  - destruct H5 as (_ & _ & _ & _ & H). exact (H _ Ht).
  - destruct H6 as (_ & _ & _ & _ & H). exact (H _ Ht).
Qed.

(** The theorem at the file of the example, across an operation that
    returns and one that raises. *)
Lemma config_file_stays_witness :
  dict_has (config_path world_with_roles) (files world_with_roles) = true
  /\ dict_has home_config (files (snd (remove_resource "roles" "batch-role" world_with_roles)))
     = true
  /\ is_ok (fst (remove_resource "jobs" "job-1" world_with_roles)) = false
  /\ dict_has home_config (files (snd (remove_resource "jobs" "job-1" world_with_roles)))
     = true.
Proof.
  destruct (config_file_stays world_with_roles eq_refl) as (_ & _ & H & _).
  split; [reflexivity|]. split; [exact (H "roles" "batch-role")|].
  split; [reflexivity | exact (H "jobs" "job-1")].
Defined.
